(** * aiDoctor: the consultation page (ConsultByIdPage)

    A shallow embedding of the chat controller of the consultation page:
    the transcript ([messages]), the greeting bootstrap ([boot]), message
    submission ([sendMessage]), the server-sent-event consumer ([openSSE]
    and its three listeners) and the end-of-consultation flow
    ([handleEndConsult], [generateClinicalNote]).

    The sources hold two versions of the page.  They share the bootstrap,
    the submission and the stream code word for word; the embedding
    follows the one that ends a consultation with the clinical-note
    dialog (the other one posts the end request and returns to the entry
    point).

    Conventions of the embedding.
    - A JavaScript string is a [string] holding its UTF-8 encoding.
    - React state ([useState]) and refs ([useRef]) are the fields of one
      record, [View]; a state setter is applied at once, in program order.
    - Every [EventSource] the page creates lives in a store
      ([eventSources]) and is named by its position there; [sseRef] holds
      such a name.  The browser is modelled by [dispatchEvent]: an
      EventSource whose readyState is CLOSED never runs a listener.
    - The body of a response is typed as its endpoint documents it
      ([FirstMessage], [ClinicalNote]); the payload of a token event is
      arbitrary text, so [JSON.parse] is a parameter and its results are
      [JsValue]s.
    - What the outside world supplies is an argument: clock readings
      ([Date.now()], [toISOString()], [toLocaleString()]), the way a
      [fetch] settles ([Response]) and the text of each pushed event.
    - What the page asks of the outside world is logged as an [Effect]. *)

From Stdlib Require Import Ascii String ZArith Lia.
From stdpp Require Import base strings list pretty.

Local Open Scope string_scope.
Local Open Scope list_scope.

(** ** Strings *)

(** [concat] of JavaScript strings, left to right. *)
Definition concatAll (parts : list string) : string :=
  foldr String.append "" parts.

(** The double quote and the line feed, which a literal cannot hold. *)
Definition dquote : string := String (ascii_of_nat 34) "".
Definition nl : string := String (ascii_of_nat 10) "".

(** *** [String.prototype.trim]

    ECMAScript strips WhiteSpace and LineTerminator code points from both
    ends.  In UTF-8 these are the one-byte TAB, LF, VT, FF, CR and SPACE,
    the two-byte U+00A0, and the three-byte U+1680, U+2000..U+200A,
    U+2028, U+2029, U+202F, U+205F, U+3000 and U+FEFF. *)

Definition is_ws1 (a : ascii) : bool :=
  let n := nat_of_ascii a in
  (((9 <=? n) && (n <=? 13)) || (n =? 32))%nat.

Definition is_ws2 (a b : ascii) : bool :=
  ((nat_of_ascii a =? 194) && (nat_of_ascii b =? 160))%nat.

Definition is_ws3 (a b c : ascii) : bool :=
  let x := nat_of_ascii a in
  let y := nat_of_ascii b in
  let z := nat_of_ascii c in
  (((x =? 225) && (y =? 154) && (z =? 128))
   || ((x =? 226) && (y =? 128)
       && (((128 <=? z) && (z <=? 138)) || (z =? 168) || (z =? 169) || (z =? 175)))
   || ((x =? 226) && (y =? 129) && (z =? 159))
   || ((x =? 227) && (y =? 128) && (z =? 128))
   || ((x =? 239) && (y =? 187) && (z =? 191)))%nat.

Fixpoint trimStart (s : string) : string :=
  match s with
  | String a s1 =>
      if is_ws1 a then trimStart s1 else
      match s1 with
      | String b s2 =>
          if is_ws2 a b then trimStart s2 else
          match s2 with
          | String c s3 => if is_ws3 a b c then trimStart s3 else s
          | EmptyString => s
          end
      | EmptyString => s
      end
  | EmptyString => s
  end.

(** The same scan over the reversed text: the bytes of a code point arrive
    last byte first. *)
Fixpoint trimStart_rev (s : string) : string :=
  match s with
  | String a s1 =>
      if is_ws1 a then trimStart_rev s1 else
      match s1 with
      | String b s2 =>
          if is_ws2 b a then trimStart_rev s2 else
          match s2 with
          | String c s3 => if is_ws3 c b a then trimStart_rev s3 else s
          | EmptyString => s
          end
      | EmptyString => s
      end
  | EmptyString => s
  end.

Definition trimEnd (s : string) : string :=
  String.rev (trimStart_rev (String.rev s)).

Definition trim (s : string) : string := trimEnd (trimStart s).

(** ** JavaScript values, as far as the page looks at them *)

(** A number is kept as the text [String()] yields for it. *)
#[local] Set Warnings "-register-all".
Inductive JsValue :=
| JUndefined
| JNull
| JBool (b : bool)
| JNum (repr : string)
| JStr (s : string)
| JArr (items : list JsValue)
| JObj (props : list (string * JsValue)).

(** Own-property lookup. *)
Fixpoint ownProp (k : string) (props : list (string * JsValue)) : JsValue :=
  match props with
  | [] => JUndefined
  | (k', v) :: rest => if bool_decide (k' = k) then v else ownProp k rest
  end.

Definition hasOwn (k : string) (props : list (string * JsValue)) : bool :=
  bool_decide (k ∈ map fst props).

(** [v.k] for a key that no prototype defines ([delta]).  [None] is the
    TypeError of reading a property of [null] or [undefined]. *)
Definition getProp (k : string) (v : JsValue) : option JsValue :=
  match v with
  | JUndefined | JNull => None
  | JObj props => Some (ownProp k props)
  | _ => Some JUndefined
  end.

(** [a ?? b] *)
Definition nullish (a b : JsValue) : JsValue :=
  match a with
  | JUndefined | JNull => b
  | _ => a
  end.

(** [String(v)].  An array joins its elements with commas, [null] and
    [undefined] elements counting as empty; a plain object prints as
    [[object Object]] unless the data shadows [toString], in which case no
    primitive can be obtained and a TypeError is thrown ([None]). *)
Fixpoint js_String (v : JsValue) : option string :=
  match v with
  | JUndefined => Some "undefined"
  | JNull => Some "null"
  | JBool true => Some "true"
  | JBool false => Some "false"
  | JNum repr => Some repr
  | JStr s => Some s
  | JArr items =>
      (fix join (l : list JsValue) : option string :=
         match l with
         | [] => Some ""
         | x :: rest =>
             match (match x with
                    | JUndefined | JNull => Some ""
                    | _ => js_String x
                    end) with
             | None => None
             | Some s =>
                 match rest with
                 | [] => Some s
                 | _ :: _ =>
                     match join rest with
                     | None => None
                     | Some r => Some (s +:+ "," +:+ r)
                     end
                 end
             end
         end) items
  | JObj props =>
      if hasOwn "toString" props then None else Some "[object Object]"
  end.

(** [s || d] on strings: the empty string is the only falsy one. *)
Definition or_else (s d : string) : string :=
  if bool_decide (s = "") then d else s.

(** ** Data model *)

Inductive Role := system | assistant | user.

Record ChatMessage := {
  id : string;
  role : Role;
  content : string;
  createdAt : string;
}.

(** [{ ...m, content: c }] *)
Definition withContent (m : ChatMessage) (c : string) : ChatMessage :=
  {| id := id m; role := role m; content := c; createdAt := createdAt m |}.

(** An EventSource of the page: whether [close()] has been called on it
    (readyState CLOSED), and the [tempId] its listeners have captured once
    they are registered. *)
Record EventSource := {
  closed : bool;
  tempId : option string;
}.

(** The state of one mounted page: the route parameter, the [useState]
    cells, the two refs and the EventSources created so far. *)
Record View := {
  encounterId : option string;
  messages : list ChatMessage;
  input : string;
  isSending : bool;
  isStreaming : bool;
  chiefComplaint : option string;
  noteOpen : bool;
  noteMD : string;
  noteLoading : bool;
  sseRef : option nat;
  assistantBufferRef : string;
  eventSources : list EventSource;
}.

Definition initialView (encounter : option string) : View :=
  {| encounterId := encounter; messages := []; input := "";
     isSending := false; isStreaming := false; chiefComplaint := None;
     noteOpen := false; noteMD := ""; noteLoading := false;
     sseRef := None; assistantBufferRef := ""; eventSources := [] |}.

(** [!encounterId] is false exactly for a non-empty string. *)
Definition bound (encounter : option string) : bool :=
  match encounter with
  | Some s => negb (bool_decide (s = ""))
  | None => false
  end.

(** [String(encounterId)] *)
Definition String_encounterId (encounter : option string) : string :=
  match encounter with
  | Some s => s
  | None => "undefined"
  end.

(** ** What the page asks of the outside world *)

Inductive Effect :=
| GetFirstMessage                          (* GET /api/templates/first-message *)
| PostMessage (encounter content : string) (* POST /api/encounters/:id/messages *)
| NewEventSource (encounter : string)      (* GET /api/encounters/:id/stream *)
| PostEnd (encounter : string)             (* POST /api/encounters/:id/end *)
| PostClinicalNote (encounter : string)    (* POST /api/encounters/:id/clinical-note *)
| RouterPush (path : string)
| ConsoleError.

Definition isNetwork (e : Effect) : bool :=
  match e with
  | RouterPush _ | ConsoleError => false
  | _ => true
  end.

(** How an awaited [fetch] settles: it rejects, or it resolves to a
    response with its [ok] flag and the outcome of [res.json()] ([None]
    when that rejects). *)
Inductive Response (A : Type) :=
| Rejected
| Resolved (ok : bool) (json : option A).
Arguments Rejected {A}.
Arguments Resolved {A} ok json.

(** Body of the greeting template: [data?.content]. *)
Record FirstMessage := { fm_content : option string }.

(** Body of the clinical note: [data?.note_md], [data?.chief_complaint]. *)
Record ClinicalNote := {
  note_md : option string;
  chief_complaint : option string;
}.

(** [x || d] where [x] is an optional text. *)
Definition or_default (x : option string) (d : string) : string :=
  match x with
  | Some s => or_else s d
  | None => d
  end.

(** ** Handlers as state transformers that may throw and that log effects *)

Inductive Completion (A : Type) :=
| Normal (a : A)
| Thrown.
Arguments Normal {A} a.
Arguments Thrown {A}.

Definition Eff (A : Type) : Type := View → Completion A * View * list Effect.

Definition ret {A} (a : A) : Eff A := λ v, (Normal a, v, []).

Definition bind {A B} (m : Eff A) (k : A → Eff B) : Eff B := λ v,
  match m v with
  | (Normal a, v1, l1) =>
      match k a v1 with
      | (r, v2, l2) => (r, v2, l1 ++ l2)
      end
  | (Thrown, v1, l1) => (Thrown, v1, l1)
  end.

Notation "x <- m ;; k" := (bind m (λ x, k))
  (at level 100, m at next level, right associativity, only parsing).
Notation "m ;;; k" := (bind m (λ _, k))
  (at level 100, right associativity, only parsing).

Definition throw {A} : Eff A := λ v, (Thrown, v, []).

(** [try { m } catch { h }] *)
Definition try_catch {A} (m h : Eff A) : Eff A := λ v,
  match m v with
  | (Normal a, v1, l1) => (Normal a, v1, l1)
  | (Thrown, v1, l1) =>
      match h v1 with
      | (r, v2, l2) => (r, v2, l1 ++ l2)
      end
  end.

(** [try { m } finally { f }] *)
Definition try_finally {A} (m : Eff A) (f : Eff unit) : Eff A := λ v,
  match m v with
  | (r, v1, l1) =>
      match f v1 with
      | (Normal _, v2, l2) => (r, v2, l1 ++ l2)
      | (Thrown, v2, l2) => (Thrown, v2, l1 ++ l2)
      end
  end.

Definition get : Eff View := λ v, (Normal v, v, []).
Definition modify (f : View → View) : Eff unit := λ v, (Normal (), f v, []).
Definition emit (e : Effect) : Eff unit := λ v, (Normal (), v, [e]).

Definition exec {A} (m : Eff A) (v : View) : View := (m v).1.2.
Definition effects {A} (m : Eff A) (v : View) : list Effect := (m v).2.
Definition completion {A} (m : Eff A) (v : View) : Completion A := (m v).1.1.

(** [await] of a fetch already issued. *)
Definition await {A} (r : Response A) : Eff (bool * option A) :=
  match r with
  | Rejected => throw
  | Resolved ok json => ret (ok, json)
  end.

(** [await fetch(...)] *)
Definition fetch {A} (e : Effect) (r : Response A) : Eff (bool * option A) :=
  emit e ;;; await r.

(** [await res.json()] *)
Definition json_of {A} (res : bool * option A) : Eff A :=
  match res.2 with
  | Some data => ret data
  | None => throw
  end.

Definition consoleError : Eff unit := emit ConsoleError.

(** *** Writing one cell of the view *)

Definition with_messages (x : list ChatMessage) (v : View) : View :=
  {| encounterId := encounterId v; messages := x; input := input v;
     isSending := isSending v; isStreaming := isStreaming v;
     chiefComplaint := chiefComplaint v; noteOpen := noteOpen v;
     noteMD := noteMD v; noteLoading := noteLoading v; sseRef := sseRef v;
     assistantBufferRef := assistantBufferRef v;
     eventSources := eventSources v |}.

Definition with_input (x : string) (v : View) : View :=
  {| encounterId := encounterId v; messages := messages v; input := x;
     isSending := isSending v; isStreaming := isStreaming v;
     chiefComplaint := chiefComplaint v; noteOpen := noteOpen v;
     noteMD := noteMD v; noteLoading := noteLoading v; sseRef := sseRef v;
     assistantBufferRef := assistantBufferRef v;
     eventSources := eventSources v |}.

Definition with_isSending (x : bool) (v : View) : View :=
  {| encounterId := encounterId v; messages := messages v;
     input := input v; isSending := x; isStreaming := isStreaming v;
     chiefComplaint := chiefComplaint v; noteOpen := noteOpen v;
     noteMD := noteMD v; noteLoading := noteLoading v; sseRef := sseRef v;
     assistantBufferRef := assistantBufferRef v;
     eventSources := eventSources v |}.

Definition with_isStreaming (x : bool) (v : View) : View :=
  {| encounterId := encounterId v; messages := messages v;
     input := input v; isSending := isSending v; isStreaming := x;
     chiefComplaint := chiefComplaint v; noteOpen := noteOpen v;
     noteMD := noteMD v; noteLoading := noteLoading v; sseRef := sseRef v;
     assistantBufferRef := assistantBufferRef v;
     eventSources := eventSources v |}.

Definition with_chiefComplaint (x : option string) (v : View) : View :=
  {| encounterId := encounterId v; messages := messages v;
     input := input v; isSending := isSending v;
     isStreaming := isStreaming v; chiefComplaint := x;
     noteOpen := noteOpen v; noteMD := noteMD v;
     noteLoading := noteLoading v; sseRef := sseRef v;
     assistantBufferRef := assistantBufferRef v;
     eventSources := eventSources v |}.

Definition with_noteOpen (x : bool) (v : View) : View :=
  {| encounterId := encounterId v; messages := messages v;
     input := input v; isSending := isSending v;
     isStreaming := isStreaming v; chiefComplaint := chiefComplaint v;
     noteOpen := x; noteMD := noteMD v; noteLoading := noteLoading v;
     sseRef := sseRef v; assistantBufferRef := assistantBufferRef v;
     eventSources := eventSources v |}.

Definition with_noteMD (x : string) (v : View) : View :=
  {| encounterId := encounterId v; messages := messages v;
     input := input v; isSending := isSending v;
     isStreaming := isStreaming v; chiefComplaint := chiefComplaint v;
     noteOpen := noteOpen v; noteMD := x; noteLoading := noteLoading v;
     sseRef := sseRef v; assistantBufferRef := assistantBufferRef v;
     eventSources := eventSources v |}.

Definition with_noteLoading (x : bool) (v : View) : View :=
  {| encounterId := encounterId v; messages := messages v;
     input := input v; isSending := isSending v;
     isStreaming := isStreaming v; chiefComplaint := chiefComplaint v;
     noteOpen := noteOpen v; noteMD := noteMD v; noteLoading := x;
     sseRef := sseRef v; assistantBufferRef := assistantBufferRef v;
     eventSources := eventSources v |}.

Definition with_sseRef (x : option nat) (v : View) : View :=
  {| encounterId := encounterId v; messages := messages v;
     input := input v; isSending := isSending v;
     isStreaming := isStreaming v; chiefComplaint := chiefComplaint v;
     noteOpen := noteOpen v; noteMD := noteMD v;
     noteLoading := noteLoading v; sseRef := x;
     assistantBufferRef := assistantBufferRef v;
     eventSources := eventSources v |}.

Definition with_assistantBufferRef (x : string) (v : View) : View :=
  {| encounterId := encounterId v; messages := messages v;
     input := input v; isSending := isSending v;
     isStreaming := isStreaming v; chiefComplaint := chiefComplaint v;
     noteOpen := noteOpen v; noteMD := noteMD v;
     noteLoading := noteLoading v; sseRef := sseRef v;
     assistantBufferRef := x; eventSources := eventSources v |}.

Definition with_eventSources (x : list EventSource) (v : View) : View :=
  {| encounterId := encounterId v; messages := messages v;
     input := input v; isSending := isSending v;
     isStreaming := isStreaming v; chiefComplaint := chiefComplaint v;
     noteOpen := noteOpen v; noteMD := noteMD v;
     noteLoading := noteLoading v; sseRef := sseRef v;
     assistantBufferRef := assistantBufferRef v; eventSources := x |}.

Definition setMessages (f : list ChatMessage → list ChatMessage) : Eff unit :=
  modify (λ v, with_messages (f (messages v)) v).
Definition setInput (s : string) : Eff unit := modify (with_input s).
Definition setIsSending (b : bool) : Eff unit := modify (with_isSending b).
Definition setIsStreaming (b : bool) : Eff unit := modify (with_isStreaming b).
Definition setChiefComplaint (c : string) : Eff unit :=
  modify (with_chiefComplaint (Some c)).
Definition setNoteOpen (b : bool) : Eff unit := modify (with_noteOpen b).
Definition setNoteMD (s : string) : Eff unit := modify (with_noteMD s).
Definition setNoteLoading (b : bool) : Eff unit := modify (with_noteLoading b).

(** [sseRef.current = r] *)
Definition set_sseRef (r : option nat) : Eff unit := modify (with_sseRef r).

(** [assistantBufferRef.current += s] and [assistantBufferRef.current = s] *)
Definition appendBuffer (s : string) : Eff unit :=
  modify (λ v, with_assistantBufferRef (assistantBufferRef v +:+ s) v).
Definition resetBuffer : Eff unit := modify (with_assistantBufferRef "").

(** [es.close()] *)
Definition markClosed (es : EventSource) : EventSource :=
  {| closed := true; tempId := tempId es |}.
Definition close (es : nat) : Eff unit :=
  modify (λ v, with_eventSources (alter markClosed es (eventSources v)) v).

(** [sseRef.current?.close()] *)
Definition closeCurrent : Eff unit :=
  v <- get ;;
  match sseRef v with
  | Some es => close es
  | None => ret ()
  end.

(** [new EventSource(url)]: the connection is requested and the object
    takes the next free place in the store. *)
Definition newEventSource (encounter : string) : Eff nat :=
  v <- get ;;
  emit (NewEventSource encounter) ;;;
  modify (with_eventSources
            (eventSources v ++ [ {| closed := false; tempId := None |} ])) ;;;
  ret (length (eventSources v)).

(** [es.addEventListener("token", ...)], [es.addEventListener("done", ...)]
    and [es.onerror = ...]: the three listeners share the captured
    [tempId]. *)
Definition listen (t : string) (es : EventSource) : EventSource :=
  {| closed := closed es; tempId := Some t |}.
Definition addListeners (es : nat) (t : string) : Eff unit :=
  modify (λ v, with_eventSources (alter (listen t) es (eventSources v)) v).

(** ** The clock *)

(** One reading of the clock: [Date.now()] and [new Date().toISOString()]. *)
Record Clock := {
  now : Z;
  iso : string;
}.

(** ** Bootstrap: the greeting *)

Definition disclaimer : string :=
  "※ このサービスは医療行為の代替ではありません。緊急時は119番または最寄りの医療機関へ。".

Definition defaultGreeting : string := "本日はどうなさいましたか？".

(** The two entries [boot] hands to [setMessages]. *)
Definition seed (cSys cAsst : Clock) (greeting : string) : list ChatMessage :=
  [ {| id := "sys-" +:+ pretty (now cSys); role := system;
       content := disclaimer; createdAt := iso cSys |};
    {| id := "asst-" +:+ pretty (now cAsst + 1)%Z; role := assistant;
       content := greeting; createdAt := iso cAsst |} ].

(** [boot()], with the way the greeting fetch settles and whether the
    effect's cleanup has run in the meantime ([aborted]). *)
Definition boot (r : Response FirstMessage) (aborted : bool)
    (cSys cAsst : Clock) : Eff unit :=
  try_catch
    (res <- fetch GetFirstMessage r ;;
     greeting <- (if res.1
                  then data <- json_of res ;;
                       ret (or_default (fm_content data) defaultGreeting)
                  else ret defaultGreeting) ;;
     if aborted then ret ()
     else setMessages (λ _, seed cSys cAsst greeting))
    (setMessages (λ _, seed cSys cAsst defaultGreeting)).

(** The body of the mount effect. *)
Definition mountEffect (r : Response FirstMessage) (aborted : bool)
    (cSys cAsst : Clock) : Eff unit :=
  v <- get ;;
  if negb (bound (encounterId v)) then ret ()
  else boot r aborted cSys cAsst.

(** The cleanup the mount effect returns. *)
Definition cleanup : Eff unit :=
  closeCurrent ;;;
  set_sseRef None.

(** ** The transcript update of a token *)

(** [prev.map((m) => m.id === tempId ? { ...m, content } : m)] *)
Definition updateContent (target fullContent : string)
    (prev : list ChatMessage) : list ChatMessage :=
  (λ m, if bool_decide (id m = target) then withContent m fullContent
        else m) <$> prev.

(** ** Opening the stream *)

Definition openSSE (c : Clock) : Eff unit :=
  v <- get ;;
  if negb (bound (encounterId v)) then ret () else
  closeCurrent ;;;
  set_sseRef None ;;;
  es <- newEventSource (String_encounterId (encounterId v)) ;;
  set_sseRef (Some es) ;;;
  setIsStreaming true ;;;
  resetBuffer ;;;
  let t := "asst-" +:+ pretty (now c) in
  setMessages (λ prev, prev ++ [ {| id := t; role := assistant;
                                    content := ""; createdAt := iso c |} ]) ;;;
  addListeners es t.

(** ** Events of the stream *)

Inductive SseEvent :=
| token (data : string)
| done
| error.

Section Page.

(** [JSON.parse]: [None] when it throws a SyntaxError. *)
Variable JSON_parse : string → option JsValue.

(** The text a token event adds to the buffer. *)
Definition deltaOf (data : string) : string :=
  match JSON_parse data with
  | Some parsed =>
      match getProp "delta" parsed with
      | Some d =>
          match js_String (nullish d (JStr "")) with
          | Some s => s
          | None => or_else data ""
          end
      | None => or_else data ""
      end
  | None => or_else data ""
  end.

(** Lifting the three steps of the [try] block, each of which may throw. *)
Definition orThrow {A} (x : option A) : Eff A :=
  match x with
  | Some a => ret a
  | None => throw
  end.

(** The [token] listener of the EventSource whose listeners captured
    [t]. *)
Definition onToken (t : string) (data : string) : Eff unit :=
  try_catch
    (parsed <- orThrow (JSON_parse data) ;;
     d <- orThrow (getProp "delta" parsed) ;;
     let delta := nullish d (JStr "") in
     s <- orThrow (js_String delta) ;;
     appendBuffer s)
    (appendBuffer (or_else data "")) ;;;
  v <- get ;;
  setMessages (updateContent t (assistantBufferRef v)).

(** The [done] listener and [onerror] of EventSource [es]. *)
Definition onDone (es : nat) : Eff unit :=
  setIsStreaming false ;;;
  close es ;;;
  set_sseRef None.

Definition onError (es : nat) : Eff unit :=
  setIsStreaming false ;;;
  close es ;;;
  set_sseRef None.

(** The browser delivering an event to EventSource [es]: nothing runs
    when [es] is CLOSED or has no listeners. *)
Definition dispatchEvent (es : nat) (ev : SseEvent) : Eff unit := λ v,
  match eventSources v !! es with
  | Some {| closed := false; tempId := Some t |} =>
      match ev with
      | token data => onToken t data v
      | done => onDone es v
      | error => onError es v
      end
  | _ => ret () v
  end.

(** ** Sending a message *)

(** [sendMessage] up to the point where the POST is in flight.  The
    result says whether it was issued. *)
Definition sendMessage_submit (text : option string) (c : Clock) : Eff bool :=
  v <- get ;;
  let encounter := or_default (encounterId v) "" in
  if bool_decide (encounter = "") then emit (RouterPush "/") ;;; ret false else
  let content := trim (default (input v) text) in
  if bool_decide (content = "") then ret false else
  setIsSending true ;;;
  let userMsg := {| id := "user-" +:+ pretty (now c); role := user;
                    content := content; createdAt := iso c |} in
  setMessages (λ prev, prev ++ [userMsg]) ;;;
  setInput "" ;;;
  emit (PostMessage encounter content) ;;;
  ret true.

(** [sendMessage] from the point where the POST settles. *)
Definition sendMessage_settle (r : Response unit) (c : Clock) : Eff unit :=
  try_finally
    (try_catch
       (res <- await r ;;
        if negb res.1 then throw else openSSE c)
       consoleError)
    (setIsSending false).

Definition sendMessage (text : option string) (c : Clock)
    (r : Response unit) (c' : Clock) : Eff unit :=
  sent <- sendMessage_submit text c ;;
  if sent then sendMessage_settle r c' else ret ().

(** ** Ending the consultation *)

Definition fallbackNote (chief : option string) (locale : string) : string :=
  "# 内科カルテ" +:+ nl +:+ nl +:+
  "**主訴**: " +:+ default "（未入力）" chief +:+ nl +:+ nl +:+
  "**現病歴**: （チャット内容をもとに要約）" +:+ nl +:+ nl +:+
  "**既往歴**: " +:+ nl +:+ nl +:+
  "**アレルギー**: " +:+ nl +:+ nl +:+
  "**内服薬**: " +:+ nl +:+ nl +:+
  "**身体所見**: " +:+ nl +:+ nl +:+
  "**鑑別診断**: " +:+ nl +:+ nl +:+
  "**評価**: " +:+ nl +:+ nl +:+
  "**Plan**: 検査/処方/指導/フォローアップ" +:+ nl +:+ nl +:+
  "---" +:+ nl +:+ "作成時刻: " +:+ locale.

(** [generateClinicalNote()], with the way its POST settles and the
    reading of [new Date().toLocaleString()]. *)
Definition generateClinicalNote (r : Response ClinicalNote)
    (locale : string) : Eff unit :=
  v <- get ;;
  if negb (bound (encounterId v)) then ret () else
  setNoteLoading true ;;;
  try_finally
    (try_catch
       (res <- fetch (PostClinicalNote (String_encounterId (encounterId v))) r ;;
        if negb res.1 then throw else
        data <- json_of res ;;
        setNoteMD (or_default (note_md data) "") ;;;
        match chief_complaint data with
        | Some chief =>
            if bool_decide (chief = "") then ret () else setChiefComplaint chief
        | None => ret ()
        end ;;;
        setNoteOpen true)
       (consoleError ;;;
        setNoteMD (fallbackNote (chiefComplaint v) locale) ;;;
        setNoteOpen true))
    (setNoteLoading false).

(** [handleEndConsult()].  [generateClinicalNote] never throws, so at most
    one of its two call sites runs and one settlement is enough. *)
Definition handleEndConsult (rEnd : Response unit)
    (rNote : Response ClinicalNote) (locale : string) : Eff unit :=
  try_catch
    (v <- get ;;
     fetch (PostEnd (String_encounterId (encounterId v))) rEnd ;;;
     generateClinicalNote rNote locale)
    (consoleError ;;;
     generateClinicalNote rNote locale).

(** ** The page as a machine *)

(** What can happen to a mounted page, one step at a time: the greeting
    fetch of the mount effect settles, the effect is cleaned up, the user
    edits the input, a message is submitted, its POST settles, the browser
    delivers an event of a stream, the user ends the consultation, the
    note dialog is dismissed ([setNoteOpen(false)]). *)
Inductive Action :=
| Mount (r : Response FirstMessage) (aborted : bool) (cSys cAsst : Clock)
| Unmount
| Compose (s : string)
| Submit (text : option string) (c : Clock)
| Settle (r : Response unit) (c : Clock)
| Deliver (es : nat) (ev : SseEvent)
| EndConsult (rEnd : Response unit) (rNote : Response ClinicalNote)
    (locale : string)
| Dismiss.

Definition perform (a : Action) : Eff unit :=
  match a with
  | Mount r aborted cSys cAsst => mountEffect r aborted cSys cAsst
  | Unmount => cleanup
  | Compose s => setInput s
  | Submit text c => sendMessage_submit text c ;;; ret ()
  | Settle r c => sendMessage_settle r c
  | Deliver es ev => dispatchEvent es ev
  | EndConsult rEnd rNote locale => handleEndConsult rEnd rNote locale
  | Dismiss => setNoteOpen false
  end.

Definition run (acts : list Action) (v : View) : View :=
  foldl (λ v a, exec (perform a) v) v acts.

End Page.


(** ** Vocabulary of the properties *)

(** An EventSource that is not CLOSED and has its listeners. *)
Definition isOpen (v : View) (es : nat) : Prop :=
  ∃ t, eventSources v !! es = Some {| closed := false; tempId := Some t |}.

Definition isClosed (v : View) (es : nat) : Prop :=
  closed <$> eventSources v !! es = Some true.

(** [sseRef.current?.close()] on the store. *)
Definition closedCurrent (v : View) : list EventSource :=
  match sseRef v with
  | Some es => alter markClosed es (eventSources v)
  | None => eventSources v
  end.

(** The view [openSSE] leaves behind on a page with an encounter id. *)
Definition opened (c : Clock) (v : View) : View :=
  {| encounterId := encounterId v;
     messages := messages v ++ [ {| id := "asst-" +:+ pretty (now c);
                                    role := assistant; content := "";
                                    createdAt := iso c |} ];
     input := input v;
     isSending := isSending v;
     isStreaming := true;
     chiefComplaint := chiefComplaint v;
     noteOpen := noteOpen v;
     noteMD := noteMD v;
     noteLoading := noteLoading v;
     sseRef := Some (length (closedCurrent v));
     assistantBufferRef := "";
     eventSources :=
       alter (listen ("asst-" +:+ pretty (now c))) (length (closedCurrent v))
         (closedCurrent v ++ [ {| closed := false; tempId := None |} ]) |}.

(** How one step of the page may change the EventSources and [sseRef]:
    not at all; by closing one EventSource and clearing [sseRef]; or by
    closing the current one and installing a fresh one. *)
Inductive SourcesStep (v v' : View) : Prop :=
| step_same :
    eventSources v' = eventSources v → sseRef v' = sseRef v →
    SourcesStep v v'
| step_close (es : nat) :
    eventSources v' = alter markClosed es (eventSources v) →
    sseRef v' = None →
    isOpen v es ∨ sseRef v = Some es →
    SourcesStep v v'
| step_open (t : string) :
    eventSources v'
    = alter (listen t) (length (closedCurrent v))
        (closedCurrent v ++ [ {| closed := false; tempId := None |} ]) →
    sseRef v' = Some (length (closedCurrent v)) →
    SourcesStep v v'.

(** Every EventSource that is not closed is the one [sseRef] names. *)
Definition onlyCurrentOpen (v : View) : Prop :=
  ∀ es e, eventSources v !! es = Some e → closed e = false →
          sseRef v = Some es.

(** A burst of token events on one EventSource. *)
Definition tokens (es : nat) (datas : list string) : list Action :=
  (λ d, Deliver es (token d)) <$> datas.

Definition reachable (JSON_parse : string → option JsValue) (v : View) : Prop :=
  ∃ acts encounter, v = run JSON_parse acts (initialView encounter).

(** The ways a fetch can fail to deliver a usable body: it rejects, the
    status is not a success, or the body cannot be read. *)
Definition failed {A} (r : Response A) : bool :=
  match r with
  | Resolved true (Some _) => false
  | _ => true
  end.

(** The POST of a message needs no body: only rejection and status count. *)
Definition postFailed (r : Response unit) : bool :=
  match r with
  | Resolved true _ => false
  | _ => true
  end.

(** A text made of ASCII white space only: TAB, LF, VT, FF, CR, SPACE. *)
Fixpoint asciiBlank (s : string) : bool :=
  match s with
  | EmptyString => true
  | String a rest => is_ws1 a && asciiBlank rest
  end.

(** ** The transcript update in the specification's words *)

(** The specification's store knows which entry is pending and updates
    only that one; [pending] is the position of the pending entry, if
    there is one. *)
Definition updateContent_spec (pending : option nat)
    (target fullContent : string) (prev : list ChatMessage)
    : list ChatMessage :=
  imap (λ i m, if bool_decide (id m = target)
                  && bool_decide (pending = Some i)
               then withContent m fullContent
               else m) prev.

(** ** Sample inputs *)

Fixpoint dropPrefix (p s : string) : option string :=
  match p, s with
  | EmptyString, _ => Some s
  | String a p', String b s' =>
      if bool_decide (a = b) then dropPrefix p' s' else None
  | String _ _, EmptyString => None
  end.

(** The body of a JSON string without escapes, up to its closing quote,
    and what follows it. *)
Fixpoint plainText (s : string) : option (string * string) :=
  match s with
  | EmptyString => None
  | String a rest =>
      let n := nat_of_ascii a in
      if (n =? 34)%nat then Some ("", rest)
      else if ((n =? 92) || (n <? 32))%nat then None
      else match plainText rest with
           | Some (text, tail) => Some (String a text, tail)
           | None => None
           end
  end.

(** [{"delta":"text"}] *)
Definition deltaPayload (text : string) : string :=
  "{" +:+ dquote +:+ "delta" +:+ dquote +:+ ":" +:+ dquote +:+ text
  +:+ dquote +:+ "}".

(** A fragment of [JSON.parse]: it reads the payloads [deltaPayload]
    writes and refuses every other text.  On the payloads used below it
    agrees with [JSON.parse]. *)
Definition sample_JSON_parse (data : string) : option JsValue :=
  match dropPrefix ("{" +:+ dquote +:+ "delta" +:+ dquote +:+ ":" +:+ dquote)
          data with
  | Some body =>
      match plainText body with
      | Some (text, tail) =>
          if bool_decide (tail = "}") then Some (JObj [("delta", JStr text)])
          else None
      | None => None
      end
  | None => None
  end.

(** Clock readings one, four and five milliseconds into the epoch. *)
Definition clock1 : Clock := {| now := 1; iso := "1970-01-01T00:00:00.001Z" |}.
Definition clock4 : Clock := {| now := 4; iso := "1970-01-01T00:00:00.004Z" |}.
Definition clock5 : Clock := {| now := 5; iso := "1970-01-01T00:00:00.005Z" |}.

(** A page for encounter [enc-1] on which a POST has just succeeded: one
    stream is open. *)
Definition streaming_view : View :=
  run sample_JSON_parse
    [Submit (Some "hi") clock1; Settle (Resolved true None) clock1]
    (initialView (Some "enc-1")).

(** The same page when the message is sent before the greeting arrives,
    the greeting arrives at 4 ms and the POST succeeds at 5 ms. *)
Definition racing_view : View :=
  run sample_JSON_parse
    [Submit (Some "hi") clock1;
     Mount (Resolved true (Some {| fm_content := Some "hello" |})) false
       clock4 clock4;
     Settle (Resolved true None) clock5]
    (initialView (Some "enc-1")).

(** * The rest of the consultation page *)

(** ** Quick replies and chips *)

(** The quick replies [QuickReplies] offers. *)
Definition replies : list string :=
  [ "胸が痛いです"; "頭痛がひどいです"; "息苦しさがあります";
    "発熱が続いています"; "吐き気があります" ].

(** [handlePickQuick] *)
Definition handlePickQuick (text : string) : Eff unit := setInput text.

Inductive ChipKind := history | allergy | meds.

Definition templates (kind : ChipKind) : string :=
  match kind with
  | history => "既往歴："
  | allergy => "アレルギー："
  | meds => "服薬中の薬："
  end.

(** [handleChip]: [setInput((v) => `${v ? v + "\n" : ""}${templates[kind]}`)] *)
Definition handleChip (kind : ChipKind) : Eff unit :=
  v <- get ;;
  setInput ((if bool_decide (input v = "") then "" else input v +:+ nl)
            +:+ templates kind).

(** ** The message input *)

(** The page passes [disabled={isSending || isStreaming}]; the send button
    adds [!value.trim()]. *)
Definition MessageInput_disabled (v : View) : bool :=
  isSending v || isStreaming v.

Definition sendButton_disabled (v : View) : bool :=
  MessageInput_disabled v || bool_decide (trim (input v) = "").

Record KeyboardEvent := {
  key : string;
  shiftKey : bool;
}.

(** [handleKeyDown] with [onSend = () => sendMessage()], up to the point
    where the POST is in flight.  The result says whether
    [preventDefault] was called and whether a POST was issued. *)
Definition handleKeyDown (e : KeyboardEvent) (c : Clock) : Eff (bool * bool) :=
  if bool_decide (key e = "Enter") && negb (shiftKey e)
  then sent <- sendMessage_submit None c ;; ret (true, sent)
  else ret (false, false).

(** ** The note dialog *)

(** What the dialog's buttons ask of the browser. *)
Inductive DialogEffect :=
| WriteClipboard (text : string)
| DownloadFile (filename content mime : string)
| LogError.

(** [downloadMarkdown]: a Blob of the content, offered under the file
    name. *)
Definition downloadMarkdown (filename content : string) : list DialogEffect :=
  [DownloadFile filename content "text/markdown;charset=utf-8"].

(** [copyNote], with whether the clipboard accepted the text. *)
Definition copyNote (accepted : bool) (v : View) : list DialogEffect :=
  WriteClipboard (noteMD v) :: (if accepted then [] else [LogError]).

(** [saveNote], with the reading of [new Date().toISOString()]. *)
Definition saveNote (isoNow : string) (v : View) : list DialogEffect :=
  downloadMarkdown
    ("clinical_note_" +:+ String_encounterId (encounterId v) +:+ "_"
     +:+ substring 0 10 isoNow +:+ ".md")
    (noteMD v).

(** The dialog's [onClose] and its last button. *)
Definition closeDialog : Eff unit := setNoteOpen false.

Definition finishDialog : Eff unit :=
  setNoteOpen false ;;;
  emit (RouterPush "/").

(** ** The page without the note dialog *)

Module PlainPage.

(** [handleEndConsult] of the version of the page that has no clinical
    note: the end request, then back to the entry point. *)
Definition handleEndConsult (rEnd : Response unit) : Eff unit :=
  try_finally
    (try_catch
       (v <- get ;;
        fetch (PostEnd (String_encounterId (encounterId v))) rEnd ;;;
        ret ())
       consoleError)
    (emit (RouterPush "/")).

End PlainPage.

(** ** Vocabulary of the further properties *)

(** The bytes that occur in the UTF-8 encoding of some white space. *)
Definition wsByte (a : ascii) : bool :=
  let n := nat_of_ascii a in
  (((9 <=? n) && (n <=? 13)) || (n =? 32)
   || ((128 <=? n) && (n <=? 138)) || (n =? 154) || (n =? 159) || (n =? 160)
   || (n =? 168) || (n =? 169) || (n =? 175) || (n =? 187) || (n =? 191)
   || (n =? 194) || (n =? 225) || (n =? 226) || (n =? 227) || (n =? 239)
   || (n =? 129))%nat.

(** A text with a byte that no white space contains. *)
Fixpoint hasSolid (s : string) : bool :=
  match s with
  | EmptyString => false
  | String a rest => negb (wsByte a) || hasSolid rest
  end.

(** While a stream is open the page shows itself as streaming. *)
Definition streamingWhileOpen (v : View) : Prop :=
  ∀ es, isOpen v es → isStreaming v = true.

(** How one step of the page may change the EventSources and the
    streaming flag: both stay; one EventSource, the current one, is
    closed; or the page starts streaming. *)
Inductive StreamStep (v v' : View) : Prop :=
| stream_same :
    eventSources v' = eventSources v → isStreaming v' = isStreaming v →
    StreamStep v v'
| stream_close (es : nat) :
    eventSources v' = alter markClosed es (eventSources v) →
    isOpen v es ∨ sseRef v = Some es →
    StreamStep v v'
| stream_open :
    isStreaming v' = true →
    StreamStep v v'.

(** * The other pages *)

(** ** Handlers over any state, keeping the message of what is thrown *)

(** The way a handler finishes: it returns, or it throws a value whose
    [message] is the given text, if it has one. *)
Inductive Result (A : Type) :=
| Returned (a : A)
| Raised (message : option string).
Arguments Returned {A} a.
Arguments Raised {A} message.

Definition Proc (S E A : Type) : Type := S → Result A * S * list E.

Section Proc.

Context {S E : Type}.

Definition pure {A} (a : A) : Proc S E A := λ s, (Returned a, s, []).

Definition andThen {A B} (m : Proc S E A) (k : A → Proc S E B)
    : Proc S E B := λ s,
  match m s with
  | (Returned a, s1, l1) =>
      match k a s1 with
      | (r, s2, l2) => (r, s2, l1 ++ l2)
      end
  | (Raised message, s1, l1) => (Raised message, s1, l1)
  end.

Definition raise {A} (message : option string) : Proc S E A :=
  λ s, (Raised message, s, []).

(** [try { m } catch (e) { h(e?.message) }] *)
Definition catch {A} (m : Proc S E A) (h : option string → Proc S E A)
    : Proc S E A := λ s,
  match m s with
  | (Returned a, s1, l1) => (Returned a, s1, l1)
  | (Raised message, s1, l1) =>
      match h message s1 with
      | (r, s2, l2) => (r, s2, l1 ++ l2)
      end
  end.

(** [try { m } finally { f }] *)
Definition finally {A} (m : Proc S E A) (f : Proc S E unit)
    : Proc S E A := λ s,
  match m s with
  | (r, s1, l1) =>
      match f s1 with
      | (Returned _, s2, l2) => (r, s2, l1 ++ l2)
      | (Raised message, s2, l2) => (Raised message, s2, l1 ++ l2)
      end
  end.

Definition state : Proc S E S := λ s, (Returned s, s, []).
Definition update (f : S → S) : Proc S E unit := λ s, (Returned (), f s, []).
Definition request (e : E) : Proc S E unit := λ s, (Returned (), s, [e]).

End Proc.

Declare Scope proc_scope.
Delimit Scope proc_scope with proc.
Notation "x <- m ;; k" := (andThen m (λ x, k))
  (at level 100, m at next level, right associativity, only parsing)
  : proc_scope.
Notation "m ;;; k" := (andThen m (λ _, k))
  (at level 100, right associativity, only parsing) : proc_scope.

(** How an awaited [fetch] settles when the page looks at the status and
    at the message of a failure: it rejects with a value that may have a
    message, or it resolves to a response with its status and the body
    [res.json()] yields, unless that rejects too. *)
Inductive Body (A : Type) :=
| Unreadable (message : option string)
| Readable (data : A).
Arguments Unreadable {A} message.
Arguments Readable {A} data.

Inductive Settled (A : Type) :=
| Rejects (message : option string)
| Resolves (status : Z) (body : Body A).
Arguments Rejects {A} message.
Arguments Resolves {A} status body.

(** [res.ok]: the status is in the range 200-299. *)
Definition ok (status : Z) : bool := (200 <=? status)%Z && (status <=? 299)%Z.

Section Fetch.

Context {S E A : Type}.

(** [await fetch(...)] *)
Definition fetched (e : E) (r : Settled A) : Proc S E (Z * Body A) :=
  andThen (request e) (λ _,
    match r with
    | Rejects message => raise message
    | Resolves status body => pure (status, body)
    end).


End Fetch.

(** ** The to-do list *)

Module Todos.

#[local] Open Scope proc_scope.

(** The state of [AddTodoForm]. *)
Record Form := {
  title : string;
  pending : bool;
  error : option string;
}.

Inductive FormEffect :=
| PreventDefault
| PostTodo (title : string)   (* POST /api/todos with body {title} *)
| Mutate.                     (* mutate of the /api/todos key *)

Definition setTitle (t : string) : Proc Form FormEffect unit :=
  update (λ s, {| title := t; pending := pending s; error := error s |}).
Definition setPending (b : bool) : Proc Form FormEffect unit :=
  update (λ s, {| title := title s; pending := b; error := error s |}).
Definition setError (e : option string) : Proc Form FormEffect unit :=
  update (λ s, {| title := title s; pending := pending s; error := e |}).

(** [onSubmit], with the way the POST settles. *)
Definition onSubmit (r : Settled unit) : Proc Form FormEffect unit :=
  request PreventDefault ;;;
  s <- state ;;
  if bool_decide (trim (title s) = "") then pure () else
  setPending true ;;;
  setError None ;;;
  finally
    (catch
       (res <- fetched (PostTodo (title s)) r ;;
        if negb (ok res.1)
        then raise (Some ("Create failed: " +:+ pretty res.1))
        else
          setTitle "" ;;;
          request Mutate)
       (λ message, setError (Some (default "Failed" message))))
    (setPending false).

(** What [handleDelete] of the list page asks for. *)
Inductive ListEffect :=
| DeleteTodo (id : Z)         (* DELETE /api/todos/:id *)
| Revalidate                  (* await mutate() *)
| ConsoleError.

(** [handleDelete], with the way the DELETE settles.  [await mutate()]
    is the bound [mutate] of [useSWR]: it asks for the revalidation and
    resolves whether or not the refetch succeeds. *)
Definition handleDelete (id : Z) (r : Settled unit)
    : Proc unit ListEffect unit :=
  catch
    (res <- fetched (DeleteTodo id) r ;;
     if negb (ok res.1) then raise (Some "Delete failed") else
     request Revalidate)
    (λ _, request ConsoleError).

End Todos.

(** ** The entry page *)


(** *** [encodeURIComponent] on UTF-8 text: letters, digits and
    [- _ . ! ~ * ' ( )] stay, every other byte becomes [%XX].  (A text
    with a lone surrogate, on which the function throws, has no UTF-8
    form and is not a text of this development.) *)

Definition unreserved (a : ascii) : bool :=
  let n := nat_of_ascii a in
  (((48 <=? n) && (n <=? 57)) || ((65 <=? n) && (n <=? 90))
   || ((97 <=? n) && (n <=? 122))
   || (n =? 45) || (n =? 95) || (n =? 46) || (n =? 33) || (n =? 126)
   || (n =? 42) || (n =? 39) || (n =? 40) || (n =? 41))%nat.

Definition hexDigit (n : nat) : ascii :=
  ascii_of_nat (if (n <? 10)%nat then 48 + n else 55 + n).

Fixpoint encodeURIComponent (s : string) : string :=
  match s with
  | EmptyString => EmptyString
  | String a rest =>
      if unreserved a then String a (encodeURIComponent rest)
      else String "%"%char
             (String (hexDigit (nat_of_ascii a / 16))
                (String (hexDigit (nat_of_ascii a mod 16))
                   (encodeURIComponent rest)))
  end.

(** The inverse reading of what [encodeURIComponent] writes. *)
Definition unhex (a : ascii) : option nat :=
  let n := nat_of_ascii a in
  if ((48 <=? n) && (n <=? 57))%nat then Some (n - 48)
  else if ((65 <=? n) && (n <=? 70))%nat then Some (n - 55)
  else None.

Fixpoint decodeFuel (fuel : nat) (s : string) : option string :=
  match fuel with
  | O => None
  | S fuel =>
      match s with
      | EmptyString => Some EmptyString
      | String a rest =>
          if bool_decide (a = "%"%char) then
            match rest with
            | String h (String l rest') =>
                match unhex h, unhex l, decodeFuel fuel rest' with
                | Some x, Some y, Some t =>
                    Some (String (ascii_of_nat (16 * x + y)) t)
                | _, _, _ => None
                end
            | _ => None
            end
          else String a <$> decodeFuel fuel rest
      end
  end.

Definition decodeSegment (s : string) : option string :=
  decodeFuel (S (String.length s)) s.

Module HomePage.

#[local] Open Scope proc_scope.

Record Home := {
  isStarting : bool;
  error : option string;
}.

Inductive HomeEffect :=
| PostConsultNew              (* POST /consult/new with body {} *)
| RouterPush (path : string)
| ConsoleError.

Definition setError (e : option string) : Proc Home HomeEffect unit :=
  update (λ s, {| isStarting := isStarting s; error := e |}).





End HomePage.

(** ** The history page *)

Module History.

Inductive Triage := green | yellow | red.
Inductive EncounterStatus := active | closed.

Record Encounter := {
  id : string;
  userId : option string;
  chiefComplaint : option string;
  status : EncounterStatus;
  startedAt : string;
  endedAt : option string;
  triageLevel : option Triage;
  needsAttention : option bool;
}.

(** [handleOpen] *)
Definition handleOpen (id : string) : string :=
  "/consult/" +:+ encodeURIComponent id.

(** What a row shows: [primary] and [showFlag]. *)
Definition primary (e : Encounter) : string :=
  or_default (trim <$> chiefComplaint e) "主訴未入力".

Definition showFlag (e : Encounter) : bool :=
  default false (needsAttention e)
  || match triageLevel e with
     | Some red => true
     | _ => false
     end.

(** The children of the list: a row for each encounter and a divider
    after it unless [idx] is the last index. *)
Inductive Item :=
| Row (e : Encounter)
| Divider.

Definition items (encounters : list Encounter) : list Item :=
  mjoin (imap (λ idx e,
                 Row e :: (if bool_decide (idx ≠ length encounters - 1)
                           then [Divider] else []))
           encounters).

(** What the page shows below its heading, from what [useSWR] holds. *)
Inductive Block :=
| ErrorBanner
| Spinner
| EmptyState
| ListOf (children : list Item).

Definition page (data : option (list Encounter)) (error isLoading : bool)
    : list Block :=
  let encounters := default [] data in
  (if error then [ErrorBanner] else [])
  ++ [ if isLoading then Spinner
       else if bool_decide (length encounters = 0) then EmptyState
       else ListOf (items encounters) ].

End History.

(** ** Vocabulary of the properties of the other pages *)

(** Every byte of the text passes the test. *)
Fixpoint allBytes (P : ascii → bool) (s : string) : bool :=
  match s with
  | EmptyString => true
  | String a rest => P a && allBytes P rest
  end.

(** The bytes [encodeURIComponent] writes: the unreserved ones and the
    percent sign. *)
Definition urlSafe (a : ascii) : bool :=
  unreserved a || bool_decide (a = "%"%char).

(** Rows with one divider between each two. *)
Fixpoint separated (l : list History.Encounter) : list History.Item :=
  match l with
  | [] => []
  | e :: rest =>
      History.Row e
      :: match rest with
         | [] => []
         | _ :: _ => History.Divider :: separated rest
         end
  end.

(** The encounters of the rows, in order, and the number of dividers. *)
Definition rowsOf (l : list History.Item) : list History.Encounter :=
  omap (λ i, match i with
             | History.Row e => Some e
             | History.Divider => None
             end) l.

Fixpoint dividersOf (l : list History.Item) : nat :=
  match l with
  | [] => 0
  | History.Divider :: rest => S (dividersOf rest)
  | History.Row _ :: rest => dividersOf rest
  end.

(** * Properties *)

(** ** Strings *)

Lemma string_app_cons (c : ascii) (s t : string) :
  String c s +:+ t = String c (s +:+ t).
Proof. reflexivity. Qed.

Lemma string_app_nil_r (s : string) : s +:+ "" = s.
Proof.
  induction s as [|c s IH]; [done |].
  by rewrite string_app_cons, IH.
Qed.

Lemma string_app_assoc (a b c : string) : (a +:+ b) +:+ c = a +:+ (b +:+ c).
Proof.
  induction a as [|x a IH]; [done |].
  by rewrite !string_app_cons, IH.
Qed.

(** [trim] over the ASCII and the ideographic space, and [String()] over
    an array. *)
Example trim_spaces : trim ("  　a b　" +:+ nl) = "a b".
Proof. vm_compute. reflexivity. Qed.

Lemma trim_asciiBlank (s : string) : asciiBlank s = true → trim s = "".
Proof.
  intros Hs. unfold trim.
  assert (trimStart s = "") as ->; [|done].
  induction s as [|a s IH]; [done |].
  cbn in Hs. apply andb_true_iff in Hs as [Ha Hs].
  cbn [trimStart]. rewrite Ha. by apply IH.
Qed.

Example js_String_array :
  js_String (JArr [JNum "1"; JNull; JArr [JStr "a"; JBool true]])
  = Some "1,,a,true".
Proof. reflexivity. Qed.

(** ** Handlers in closed form *)

#[local] Arguments pretty {_ _} _ : simpl never.
#[local] Arguments trim _ : simpl never.
#[local] Arguments updateContent _ _ _ : simpl never.
#[local] Arguments concatAll _ : simpl never.
#[local] Arguments openSSE : simpl never.
#[local] Arguments generateClinicalNote : simpl never.

(** Unfolding the handlers down to the state they produce. *)
Ltac unfold_eff :=
  unfold exec, effects, completion, mountEffect, boot, cleanup, openSSE,
    onDone, onError, sendMessage, sendMessage_submit, sendMessage_settle,
    handleEndConsult, generateClinicalNote, closeCurrent, newEventSource,
    addListeners, close, fetch, await, json_of, consoleError, orThrow,
    setMessages, setInput, setIsSending, setIsStreaming, setChiefComplaint,
    setNoteOpen, setNoteMD, setNoteLoading, set_sseRef, appendBuffer,
    resetBuffer, try_catch, try_finally, bind, ret, throw, get, modify, emit
    in *;
  cbn in *.

Section Properties.

Variable JSON_parse : string → option JsValue.

Lemma dispatchEvent_closed (v : View) (es : nat) (ev : SseEvent) :
  isClosed v es → dispatchEvent JSON_parse es ev v = (Normal (), v, []).
Proof.
  unfold isClosed, dispatchEvent.
  destruct (eventSources v !! es) as [[[] t]|]; by intros [=].
Qed.

Lemma dispatchEvent_open (v : View) (es : nat) (t : string) (ev : SseEvent) :
  eventSources v !! es = Some {| closed := false; tempId := Some t |} →
  dispatchEvent JSON_parse es ev v =
    match ev with
    | token data => onToken JSON_parse t data v
    | done => onDone es v
    | error => onError es v
    end.
Proof. intros He. unfold dispatchEvent. by rewrite He. Qed.

Lemma dispatchEvent_unheard (v : View) (es : nat) (ev : SseEvent) :
  ¬ isOpen v es → dispatchEvent JSON_parse es ev v = (Normal (), v, []).
Proof.
  intros Hn. unfold dispatchEvent.
  destruct (eventSources v !! es) as [[[] [t|]]|] eqn:E; try done.
  destruct Hn. by exists t.
Qed.

(** C5.  A transport error on the stream, in any state of the page: the
    transcript and the buffer are left as they are and nothing is
    requested again; when the EventSource was open, the page stops
    streaming, the EventSource is closed and [sseRef] is cleared. *)
Theorem transport_error_keeps_partial_content (v : View) (es : nat) :
  let v' := exec (dispatchEvent JSON_parse es error) v in
  messages v' = messages v
  ∧ assistantBufferRef v' = assistantBufferRef v
  ∧ effects (dispatchEvent JSON_parse es error) v = []
  ∧ (isOpen v es →
     isStreaming v' = false ∧ sseRef v' = None ∧ isClosed v' es).
Proof.
  cbv zeta. unfold exec, effects.
  destruct (eventSources v !! es) as [[[] [t|]]|] eqn:E.
  1,2,4,5: rewrite dispatchEvent_unheard by (intros [t' Ht']; congruence);
    simpl; (split; [done | split; [done | split; [done |]]]);
    intros [t' Ht']; congruence.
  rewrite (dispatchEvent_open _ _ t) by done.
  unfold_eff. simpl. split; [done | split; [done | split; [done |]]].
  intros _. split; [done | split; [done |]].
  unfold isClosed. cbn. by rewrite list_lookup_alter_eq, E.
Qed.

(** The frame of the transcript update of a token: position, id, role and
    creation time of every entry are kept, an entry that carries the
    target id gets the new content in place of the old, entries with
    another id are untouched, and an absent id changes nothing. *)
Lemma updateContent_frame (target fullContent : string)
    (prev : list ChatMessage) :
  length (updateContent target fullContent prev) = length prev
  ∧ id <$> updateContent target fullContent prev = id <$> prev
  ∧ role <$> updateContent target fullContent prev = role <$> prev
  ∧ createdAt <$> updateContent target fullContent prev = createdAt <$> prev
  ∧ (∀ i m, prev !! i = Some m → id m = target →
       content <$> updateContent target fullContent prev !! i
       = Some fullContent)
  ∧ (∀ i m, prev !! i = Some m → id m ≠ target →
       updateContent target fullContent prev !! i = Some m)
  ∧ (target ∉ id <$> prev → updateContent target fullContent prev = prev).
Proof.
  unfold updateContent. repeat split.
  - by rewrite length_fmap.
  - rewrite <- list_fmap_compose. apply list_fmap_ext.
    intros i m _. simpl. by case_bool_decide.
  - rewrite <- list_fmap_compose. apply list_fmap_ext.
    intros i m _. simpl. by case_bool_decide.
  - rewrite <- list_fmap_compose. apply list_fmap_ext.
    intros i m _. simpl. by case_bool_decide.
  - intros i m Hm Hid. rewrite list_lookup_fmap, Hm. simpl.
    by rewrite bool_decide_eq_true_2.
  - intros i m Hm Hid. rewrite list_lookup_fmap, Hm. simpl.
    by rewrite bool_decide_eq_false_2.
  - intros Hn. rewrite <- (list_fmap_id prev) at 2. apply list_fmap_ext.
    intros i m Hm. simpl. rewrite bool_decide_eq_false_2; [done|].
    intros Hid. apply Hn. rewrite list_elem_of_fmap. exists m. split; [done|].
    by eapply list_elem_of_lookup_2.
Qed.

(** The update finds its entry by id.  On a transcript whose ids are
    distinct that is the update of the specification: the pending entry,
    the one entry with the id of the stream, is rewritten and no other. *)
Lemma updateContent_distinct_ids (target fullContent : string)
    (prev : list ChatMessage) (i : nat) (m : ChatMessage) :
  NoDup (id <$> prev) →
  prev !! i = Some m → id m = target →
  updateContent target fullContent prev
  = updateContent_spec (Some i) target fullContent prev.
Proof.
  intros Hnd Hi Hid. unfold updateContent, updateContent_spec.
  apply list_eq. intros j. rewrite list_lookup_fmap, list_lookup_imap.
  destruct (prev !! j) as [m'|] eqn:Hj; [|done]. cbn. f_equal.
  destruct (decide (id m' = target)) as [Ht|Ht].
  - assert (i = j) as ->.
    { apply (NoDup_lookup (id <$> prev) i j target); [done | |];
        rewrite list_lookup_fmap.
      - by rewrite Hi; cbn; rewrite Hid.
      - by rewrite Hj; cbn; rewrite Ht. }
    by rewrite !bool_decide_eq_true_2.
  - by rewrite (bool_decide_eq_false_2 (id m' = target)).
Qed.

(** *** The stream *)

Lemma openSSE_bound (c : Clock) (v : View) :
  bound (encounterId v) = true →
  openSSE c v
  = (Normal (), opened c v,
     [NewEventSource (String_encounterId (encounterId v))]).
Proof.
  intros Hb. unfold_eff. rewrite Hb. unfold opened, closedCurrent. cbn.
  destruct (sseRef v); reflexivity.
Qed.

Lemma openSSE_unbound (c : Clock) (v : View) :
  bound (encounterId v) = false → openSSE c v = (Normal (), v, []).
Proof. intros Hb. unfold_eff. by rewrite Hb. Qed.

Lemma length_closedCurrent (v : View) :
  length (closedCurrent v) = length (eventSources v).
Proof. unfold closedCurrent. destruct (sseRef v); [apply length_alter | done]. Qed.

Lemma opened_isOpen (c : Clock) (v : View) :
  eventSources (opened c v) !! length (eventSources v)
  = Some {| closed := false; tempId := Some ("asst-" +:+ pretty (now c)) |}.
Proof.
  unfold opened. cbn. rewrite <- length_closedCurrent.
  rewrite list_lookup_alter_eq, list_lookup_middle by done. done.
Qed.

(** One token: the buffer grows by the delta and the transcript is
    rewritten with the whole buffer. *)
Lemma onToken_step (t data : string) (v : View) :
  onToken JSON_parse t data v
  = (Normal (),
     with_messages
       (updateContent t (assistantBufferRef v +:+ deltaOf JSON_parse data)
          (messages v))
       (with_assistantBufferRef
          (assistantBufferRef v +:+ deltaOf JSON_parse data) v),
     []).
Proof.
  unfold onToken, deltaOf. unfold_eff.
  destruct (JSON_parse data) as [parsed|]; cbn; [|done].
  destruct (getProp "delta" parsed) as [d|]; cbn; [|done].
  by destruct (js_String (nullish d (JStr ""))).
Qed.

Lemma updateContent_overwrite (t b1 b2 : string) (prev : list ChatMessage) :
  updateContent t b2 (updateContent t b1 prev) = updateContent t b2 prev.
Proof.
  unfold updateContent. rewrite <- list_fmap_compose.
  apply list_fmap_ext. intros i m _. cbn.
  destruct (decide (id m = t)) as [Hid|Hid].
  - rewrite (bool_decide_eq_true_2 (id m = t)) by done. cbn.
    by rewrite bool_decide_eq_true_2.
  - by rewrite !(bool_decide_eq_false_2 (id m = t)) by done.
Qed.

(** A burst of tokens on an open EventSource, in closed form. *)
Lemma run_tokens (es : nat) (t : string) (datas : list string) (v : View) :
  eventSources v !! es = Some {| closed := false; tempId := Some t |} →
  run JSON_parse (tokens es datas) v
  = match datas with
    | [] => v
    | _ :: _ =>
        let buffer :=
          assistantBufferRef v +:+ concatAll (deltaOf JSON_parse <$> datas) in
        with_messages (updateContent t buffer (messages v))
          (with_assistantBufferRef buffer v)
    end.
Proof.
  revert v. induction datas as [|d ds IH]; intros v Ho; [done |].
  change (run JSON_parse (tokens es (d :: ds)) v)
    with (run JSON_parse (tokens es ds)
            (exec (dispatchEvent JSON_parse es (token d)) v)).
  change (concatAll (deltaOf JSON_parse <$> d :: ds))
    with (deltaOf JSON_parse d +:+ concatAll (deltaOf JSON_parse <$> ds)).
  unfold exec. rewrite (dispatchEvent_open _ _ t) by done.
  rewrite onToken_step. cbn [fst snd].
  rewrite IH by done.
  destruct ds as [|d' ds].
  - by rewrite string_app_nil_r.
  - cbv zeta. unfold with_messages, with_assistantBufferRef. cbn.
    by rewrite updateContent_overwrite, !string_app_assoc.
Qed.

Lemma bound_or_default (encounter : option string) :
  bool_decide (or_default encounter "" = "") = negb (bound encounter).
Proof.
  destruct encounter as [e|]; [|done].
  unfold bound, or_default, or_else.
  destruct (decide (e = "")) as [->|Hne]; [done |].
  by rewrite !(bool_decide_eq_false_2 (e = "")) by done.
Qed.

Lemma bound_String (encounter : option string) :
  bound encounter = true →
  or_default encounter "" = String_encounterId encounter.
Proof.
  destruct encounter as [e|]; [|done].
  unfold bound, or_default, or_else. simpl. by case_bool_decide.
Qed.

(** *** Sending *)

Lemma sendMessage_submit_accepted (v : View) (text : option string)
    (c : Clock) :
  bound (encounterId v) = true →
  trim (default (input v) text) ≠ "" →
  sendMessage_submit text c v
  = (Normal true,
     with_input ""
       (with_messages
          (messages v ++ [ {| id := "user-" +:+ pretty (now c); role := user;
                              content := trim (default (input v) text);
                              createdAt := iso c |} ])
          (with_isSending true v)),
     [PostMessage (String_encounterId (encounterId v))
        (trim (default (input v) text))]).
Proof.
  intros Hb Hc. unfold_eff. rewrite bound_or_default, Hb. cbn.
  rewrite bool_decide_eq_false_2 by done. cbn.
  by rewrite (bound_String _ Hb).
Qed.

Lemma sendMessage_settle_failed (r : Response unit) (c : Clock) (v : View) :
  postFailed r = true →
  sendMessage_settle r c v = (Normal (), with_isSending false v, [ConsoleError]).
Proof.
  intros Hf. unfold_eff.
  by destruct r as [|[] j]; [| discriminate Hf |].
Qed.

Lemma sendMessage_settle_succeeded (r : Response unit) (c : Clock) (v : View) :
  postFailed r = false →
  bound (encounterId v) = true →
  sendMessage_settle r c v
  = (Normal (), with_isSending false (opened c v),
     [NewEventSource (String_encounterId (encounterId v))]).
Proof.
  intros Hf Hb. unfold sendMessage_settle, try_finally, try_catch, bind, await.
  destruct r as [|[] j]; [discriminate Hf | | discriminate Hf].
  cbn. by rewrite openSSE_bound.
Qed.

(** C7.  A submission whose trimmed text is empty leaves the whole view,
    and so the transcript, as it was and requests nothing from the
    network; the empty text and every text of white space trim to the
    empty text.  A submission on a page without an encounter id only
    navigates to the entry point. *)
Theorem blank_or_unbound_submission_is_inert (v : View)
    (text : option string) (c c' : Clock) (r : Response unit) :
  (trim (default (input v) text) = "" →
     exec (sendMessage text c r c') v = v
     ∧ Forall (λ e, isNetwork e = false) (effects (sendMessage text c r c') v))
  ∧ (asciiBlank (default (input v) text) = true →
     trim (default (input v) text) = "")
  ∧ (bound (encounterId v) = false →
     sendMessage text c r c' v = (Normal (), v, [RouterPush "/"])).
Proof.
  split; [|split].
  - intros Hblank. unfold_eff. rewrite bound_or_default.
    destruct (bound (encounterId v)); simpl.
    + rewrite Hblank. simpl. split; [done | constructor].
    + split; [done |]. by repeat constructor.
  - apply trim_asciiBlank.
  - intros Hb. unfold_eff. rewrite bound_or_default, Hb. done.
Qed.

(** C6.  A submission that passes the two guards appends the user entry,
    clears the input and issues one POST.  When the POST fails (rejection
    or a status that is not a success) the entry stays, the failure is
    only logged, nothing is requested again and no EventSource is
    created; the handler itself completes normally.  An EventSource is
    created exactly when the POST succeeds. *)
Theorem post_failure_keeps_optimistic_entry (v : View)
    (text : option string) (c c' : Clock) (r : Response unit) :
  bound (encounterId v) = true →
  trim (default (input v) text) ≠ "" →
  let encounter := String_encounterId (encounterId v) in
  let content := trim (default (input v) text) in
  let userMsg := {| id := "user-" +:+ pretty (now c); role := user;
                    content := content; createdAt := iso c |} in
  let m := sendMessage text c r c' in
  (postFailed r = true →
     m v = (Normal (),
            with_isSending false
              (with_input "" (with_messages (messages v ++ [userMsg]) v)),
            [PostMessage encounter content; ConsoleError]))
  ∧ (postFailed r = false →
     effects m v = [PostMessage encounter content; NewEventSource encounter]
     ∧ messages (exec m v)
       = messages v ++ [userMsg;
                        {| id := "asst-" +:+ pretty (now c'); role := assistant;
                           content := ""; createdAt := iso c' |}])
  ∧ (∀ v1, postFailed r = true →
       sendMessage_settle r c' v1
       = (Normal (), with_isSending false v1, [ConsoleError])).
Proof.
  intros Hb Hc. cbv zeta. unfold sendMessage, bind, exec, effects.
  rewrite sendMessage_submit_accepted by done.
  split; [|split].
  - intros Hf. by rewrite sendMessage_settle_failed.
  - intros Hf. rewrite sendMessage_settle_succeeded by done. cbn.
    split; [done |]. by rewrite <- app_assoc.
  - intros v1 Hf. by apply sendMessage_settle_failed.
Qed.

(** The fallback note names the chief complaint, or the placeholder when
    there is none, and ends with the timestamp. *)
Lemma fallbackNote_shape (chief : option string) (locale : string) :
  ∃ before between,
    fallbackNote chief locale
    = before +:+ default "（未入力）" chief +:+ between +:+ locale.
Proof.
  exists ("# 内科カルテ" +:+ nl +:+ nl +:+ "**主訴**: ").
  exists (nl +:+ nl +:+
          "**現病歴**: （チャット内容をもとに要約）" +:+ nl +:+ nl +:+
          "**既往歴**: " +:+ nl +:+ nl +:+
          "**アレルギー**: " +:+ nl +:+ nl +:+
          "**内服薬**: " +:+ nl +:+ nl +:+
          "**身体所見**: " +:+ nl +:+ nl +:+
          "**鑑別診断**: " +:+ nl +:+ nl +:+
          "**評価**: " +:+ nl +:+ nl +:+
          "**Plan**: 検査/処方/指導/フォローアップ" +:+ nl +:+ nl +:+
          "---" +:+ nl +:+ "作成時刻: ").
  unfold fallbackNote. by rewrite !string_app_assoc.
Qed.

(** C3.  Ending the consultation on a page with an encounter id: however
    the end request settles, the note is requested exactly once after it
    and the handler completes; when the note request fails (rejection,
    a status that is not a success, or an unreadable body) the note shown
    is the fallback built from the chief complaint of the view and the
    timestamp, and the dialog is open and no longer loading. *)
Theorem end_consult_always_presents_a_note (v : View) (rEnd : Response unit)
    (rNote : Response ClinicalNote) (locale : string) :
  bound (encounterId v) = true →
  let encounter := String_encounterId (encounterId v) in
  let m := handleEndConsult rEnd rNote locale in
  completion m v = Normal ()
  ∧ effects m v
    = [PostEnd encounter]
      ++ (if rEnd is Rejected then [ConsoleError] else [])
      ++ [PostClinicalNote encounter]
      ++ (if failed rNote then [ConsoleError] else [])
  ∧ noteOpen (exec m v) = true
  ∧ noteLoading (exec m v) = false
  ∧ messages (exec m v) = messages v
  ∧ (failed rNote = true →
     noteMD (exec m v) = fallbackNote (chiefComplaint v) locale
     ∧ chiefComplaint (exec m v) = chiefComplaint v
     ∧ ∃ before between,
         noteMD (exec m v)
         = before +:+ default "（未入力）" (chiefComplaint v)
             +:+ between +:+ locale).
Proof.
  intros Hb. cbv zeta.
  assert (Hshape := fallbackNote_shape (chiefComplaint v) locale).
  unfold_eff.
  destruct rEnd as [|okE jE]; cbn; rewrite Hb; cbn;
    destruct rNote as [|[] [[md chief]|]]; cbn;
    try (destruct chief as [chief|]; cbn; [case_bool_decide; cbn |]);
    (split; [done | split; [done | split; [done | split; [done |
      split; [done |]]]]]);
    intros Hf; try done; (split; [done | split; [done | exact Hshape]]).
Qed.

(** C4, as amended.  Bootstrap on a page with an encounter id, the page
    still mounted when the greeting fetch settles: a greeting with
    non-empty content [X] seeds exactly the disclaimer followed by the
    assistant entry with content [X]; a failed fetch (rejection, a status
    that is not a success, or an unreadable body) and a greeting whose
    content is empty or missing seed the disclaimer followed by the
    default greeting.  The first entry is the same disclaimer in every
    case, and one request is made. *)
Theorem bootstrap_seeds_two_entries (v : View) (r : Response FirstMessage)
    (cSys cAsst : Clock) :
  bound (encounterId v) = true →
  let v' := exec (mountEffect r false cSys cAsst) v in
  (∀ X, r = Resolved true (Some {| fm_content := Some X |}) → X ≠ "" →
     messages v'
     = [ {| id := "sys-" +:+ pretty (now cSys); role := system;
            content := disclaimer; createdAt := iso cSys |};
         {| id := "asst-" +:+ pretty (now cAsst + 1)%Z; role := assistant;
            content := X; createdAt := iso cAsst |} ])
  ∧ (failed r = true
     ∨ r = Resolved true (Some {| fm_content := Some "" |})
     ∨ r = Resolved true (Some {| fm_content := None |}) →
     messages v'
     = [ {| id := "sys-" +:+ pretty (now cSys); role := system;
            content := disclaimer; createdAt := iso cSys |};
         {| id := "asst-" +:+ pretty (now cAsst + 1)%Z; role := assistant;
            content := defaultGreeting; createdAt := iso cAsst |} ])
  ∧ (∃ greeting, messages v' = seed cSys cAsst greeting)
  ∧ messages v' !! 0
    = Some {| id := "sys-" +:+ pretty (now cSys); role := system;
              content := disclaimer; createdAt := iso cSys |}
  ∧ effects (mountEffect r false cSys cAsst) v = [GetFirstMessage].
Proof.
  intros Hb. cbv zeta. unfold_eff. rewrite Hb. cbn.
  split; [|split; [|split; [|split]]].
  - intros X -> HX. cbn. unfold seed, or_else.
    by rewrite bool_decide_eq_false_2.
  - intros [Hf|[->| ->]]; [|done|done]. by destruct r as [|[] [d|]].
  - destruct r as [|[] [d|]]; cbn; by eexists.
  - by destruct r as [|[] [d|]].
  - by destruct r as [|[] [d|]].
Qed.

(** *** Steps of the machine and the EventSources *)

Lemma sendMessage_settle_unbound (r : Response unit) (c : Clock) (v : View) :
  bound (encounterId v) = false →
  ∃ log, sendMessage_settle r c v = (Normal (), with_isSending false v, log).
Proof.
  intros Hb. unfold sendMessage_settle, try_finally, try_catch, bind, await.
  destruct r as [|[] j]; cbn; [by eexists | | by eexists].
  rewrite openSSE_unbound by done. by eexists.
Qed.

Lemma mountEffect_sources (r : Response FirstMessage) (aborted : bool)
    (cSys cAsst : Clock) (v : View) :
  SourcesStep v (exec (mountEffect r aborted cSys cAsst) v).
Proof.
  unfold_eff. destruct (bound (encounterId v)); cbn; [|by apply step_same].
  destruct r as [|[] [d|]], aborted; cbn; by apply step_same.
Qed.

Lemma cleanup_sources (v : View) : SourcesStep v (exec cleanup v).
Proof.
  unfold_eff. destruct (sseRef v) as [es|] eqn:E; cbn.
  - apply (step_close _ _ es); auto.
  - by apply step_same.
Qed.

Lemma sendMessage_submit_sources (text : option string) (c : Clock) (v : View) :
  SourcesStep v (exec (sendMessage_submit text c ;;; ret ()) v).
Proof.
  unfold_eff. repeat (case_bool_decide; cbn); by apply step_same.
Qed.

Lemma sendMessage_settle_sources (r : Response unit) (c : Clock) (v : View) :
  SourcesStep v (exec (sendMessage_settle r c) v).
Proof.
  unfold exec.
  destruct (postFailed r) eqn:Hf.
  { rewrite sendMessage_settle_failed by done. by apply step_same. }
  destruct (bound (encounterId v)) eqn:Hb.
  - rewrite sendMessage_settle_succeeded by done.
    by apply (step_open _ _ ("asst-" +:+ pretty (now c))).
  - destruct (sendMessage_settle_unbound r c v Hb) as [log ->].
    by apply step_same.
Qed.

Lemma dispatchEvent_sources (es : nat) (ev : SseEvent) (v : View) :
  SourcesStep v (exec (dispatchEvent JSON_parse es ev) v).
Proof.
  unfold exec.
  destruct (eventSources v !! es) as [[[] [t|]]|] eqn:E.
  1,2,4,5: rewrite dispatchEvent_unheard by (intros [t' Ht']; congruence);
    by apply step_same.
  rewrite (dispatchEvent_open _ _ t) by done.
  destruct ev as [data| |].
  - rewrite onToken_step. by apply step_same.
  - apply (step_close _ _ es); [done | done |]. left. by exists t.
  - apply (step_close _ _ es); [done | done |]. left. by exists t.
Qed.

Lemma generateClinicalNote_sources (r : Response ClinicalNote)
    (locale : string) (v : View) :
  ∃ log v', generateClinicalNote r locale v = (Normal (), v', log)
            ∧ eventSources v' = eventSources v ∧ sseRef v' = sseRef v.
Proof.
  unfold_eff. destruct (bound (encounterId v)); cbn; [|by eexists _, _].
  destruct r as [|[] [[md [chief|]]|]]; cbn;
    try case_bool_decide; cbn; by eexists _, _.
Qed.

Lemma handleEndConsult_sources (rEnd : Response unit)
    (rNote : Response ClinicalNote) (locale : string) (v : View) :
  SourcesStep v (exec (handleEndConsult rEnd rNote locale) v).
Proof.
  destruct (generateClinicalNote_sources rNote locale v)
    as (log & v' & Hg & Hes & Hs).
  unfold exec, handleEndConsult, try_catch, bind, fetch, await, get, emit,
    consoleError, ret, throw.
  destruct rEnd as [|ok j]; cbn; rewrite Hg; cbn; by apply step_same.
Qed.

Lemma perform_sources (a : Action) (v : View) :
  SourcesStep v (exec (perform JSON_parse a) v).
Proof.
  destruct a; cbn [perform].
  - apply mountEffect_sources.
  - apply cleanup_sources.
  - by apply step_same.
  - apply sendMessage_submit_sources.
  - apply sendMessage_settle_sources.
  - apply dispatchEvent_sources.
  - apply handleEndConsult_sources.
  - by apply step_same.
Qed.

Lemma markClosed_keeps_closed (l : list EventSource) (es es' : nat) :
  closed <$> l !! es = Some true →
  closed <$> alter markClosed es' l !! es = Some true.
Proof.
  intros Hc. destruct (decide (es' = es)) as [->|Hne].
  - rewrite list_lookup_alter_eq. by destruct (l !! es).
  - by rewrite list_lookup_alter_ne.
Qed.

(** Once closed, always closed. *)
Lemma SourcesStep_closed (v v' : View) (es : nat) :
  SourcesStep v v' → isClosed v es → isClosed v' es.
Proof.
  unfold isClosed. intros [Hes Hs|es' Hes Hs Hc|t Hes Hs] Hclosed; rewrite Hes.
  - done.
  - by apply markClosed_keeps_closed.
  - assert (es < length (eventSources v)) as Hlt.
    { apply lookup_lt_is_Some. by destruct (eventSources v !! es). }
    rewrite <- length_closedCurrent in Hlt.
    rewrite list_lookup_alter_ne by lia. rewrite lookup_app_l by done.
    unfold closedCurrent. destruct (sseRef v); [|done].
    by apply markClosed_keeps_closed.
Qed.

Lemma SourcesStep_onlyCurrentOpen (v v' : View) :
  SourcesStep v v' → onlyCurrentOpen v → onlyCurrentOpen v'.
Proof.
  unfold onlyCurrentOpen.
  intros [Hes Hs|es' Hes Hs Hc|t Hes Hs] Hinv es e; rewrite Hes, Hs.
  - apply Hinv.
  - intros He Ho. exfalso.
    assert (sseRef v = Some es') as Hcur.
    { destruct Hc as [[t Ht]|Hc]; [|done]. by apply (Hinv _ _ Ht). }
    destruct (decide (es' = es)) as [->|Hne].
    + rewrite list_lookup_alter_eq in He.
      destruct (eventSources v !! es) as [e0|]; [|done].
      injection He as <-. done.
    + rewrite list_lookup_alter_ne in He by done.
      specialize (Hinv _ _ He Ho). congruence.
  - intros He Ho. f_equal.
    destruct (decide (length (closedCurrent v) = es)) as [Heq|Hne]; [done |].
    exfalso. rewrite list_lookup_alter_ne in He by done.
    apply lookup_app_Some in He as [He|[Hge He]].
    + unfold closedCurrent in He. destruct (sseRef v) as [cur|] eqn:Hcur.
      * destruct (decide (cur = es)) as [->|Hne'].
        -- rewrite list_lookup_alter_eq in He.
           destruct (eventSources v !! es) as [e0|]; [|done].
           injection He as <-. done.
        -- rewrite list_lookup_alter_ne in He by done.
           specialize (Hinv _ _ He Ho). congruence.
      * specialize (Hinv _ _ He Ho). congruence.
    + destruct (es - length (closedCurrent v)) as [|k] eqn:Hk; [lia |].
      done.
Qed.

Lemma run_snoc (acts : list Action) (a : Action) (v : View) :
  run JSON_parse (acts ++ [a]) v
  = exec (perform JSON_parse a) (run JSON_parse acts v).
Proof. unfold run. by rewrite foldl_app. Qed.

Lemma run_closed (acts : list Action) (v : View) (es : nat) :
  isClosed v es → isClosed (run JSON_parse acts v) es.
Proof.
  induction acts as [|a acts IH] using rev_ind; [done |].
  intros Hc. rewrite run_snoc.
  eapply SourcesStep_closed; [apply perform_sources | by apply IH].
Qed.

Lemma run_onlyCurrentOpen (acts : list Action) (v : View) :
  onlyCurrentOpen v → onlyCurrentOpen (run JSON_parse acts v).
Proof.
  induction acts as [|a acts IH] using rev_ind; [done |].
  intros Hinv. rewrite run_snoc.
  eapply SourcesStep_onlyCurrentOpen; [apply perform_sources | by apply IH].
Qed.

Lemma reachable_onlyCurrentOpen (v : View) :
  reachable JSON_parse v → onlyCurrentOpen v.
Proof.
  intros (acts & encounter & ->). apply run_onlyCurrentOpen.
  intros es e He. cbn in He. by rewrite lookup_nil in He.
Qed.

Lemma opened_closes_current (c : Clock) (v : View) (es : nat) :
  sseRef v = Some es → is_Some (eventSources v !! es) →
  isClosed (opened c v) es.
Proof.
  intros Hcur [e He]. unfold isClosed, opened. cbn.
  assert (es < length (closedCurrent v)) as Hlt.
  { rewrite length_closedCurrent. apply lookup_lt_is_Some. by exists e. }
  rewrite list_lookup_alter_ne by lia. rewrite lookup_app_l by done.
  unfold closedCurrent. rewrite Hcur, list_lookup_alter_eq, He. done.
Qed.

(** C1.  On a page reached from its initial state, with an encounter id
    and an open stream [first]: [first] is the EventSource [sseRef] names
    and the only open one; [openSSE] closes it; [done] and [error] close
    the EventSource they arrive on; and an EventSource that is closed
    stays closed whatever the page does next, every event delivered on it
    running no listener, so that the view, and with it every transcript
    entry, is exactly as before. *)
Theorem stale_events_are_ignored (v : View) (first : nat) (c : Clock) :
  reachable JSON_parse v →
  bound (encounterId v) = true →
  isOpen v first →
  (sseRef v = Some first ∧ ∀ es, isOpen v es → es = first)
  ∧ isClosed (exec (openSSE c) v) first
  ∧ isClosed (exec (dispatchEvent JSON_parse first done) v) first
  ∧ isClosed (exec (dispatchEvent JSON_parse first error) v) first
  ∧ (∀ (w : View) (es : nat) (acts : list Action) (ev : SseEvent),
       isClosed w es →
       let w' := run JSON_parse acts w in
       isClosed w' es
       ∧ dispatchEvent JSON_parse es ev w' = (Normal (), w', [])
       ∧ messages (exec (dispatchEvent JSON_parse es ev) w') = messages w').
Proof.
  intros Hr Hb [t Ht].
  assert (Hinv := reachable_onlyCurrentOpen v Hr).
  assert (sseRef v = Some first) as Hcur by by apply (Hinv _ _ Ht).
  split; [|split; [|split; [|split]]].
  - split; [done |]. intros es [t' Ht'].
    specialize (Hinv _ _ Ht' eq_refl). congruence.
  - unfold exec. rewrite openSSE_bound by done. cbn [fst snd].
    apply opened_closes_current; [done | by eexists].
  - unfold exec, isClosed. rewrite (dispatchEvent_open _ _ t) by done.
    unfold_eff. by rewrite list_lookup_alter_eq, Ht.
  - unfold exec, isClosed. rewrite (dispatchEvent_open _ _ t) by done.
    unfold_eff. by rewrite list_lookup_alter_eq, Ht.
  - intros w es acts ev Hc w'.
    assert (isClosed w' es) as Hc' by by apply run_closed.
    split; [done |]. unfold exec.
    by rewrite dispatchEvent_closed.
Qed.

(** C2.  After [openSSE] on a page with an encounter id, a burst of token
    events on the new EventSource leaves in the buffer, and as the content
    of the entry [openSSE] appended, the concatenation of the deltas in
    the order received; the transcript gains no entry and entries with
    another id are untouched.  The delta of a payload that does not parse
    is the payload itself; that of an object with a text [delta] is that
    text. *)
Theorem token_deltas_accumulate (v : View) (c : Clock) (datas : list string) :
  bound (encounterId v) = true →
  let es := length (eventSources v) in
  let t := "asst-" +:+ pretty (now c) in
  let accumulated := concatAll (deltaOf JSON_parse <$> datas) in
  let v1 := exec (openSSE c) v in
  let v2 := run JSON_parse (tokens es datas) v1 in
  sseRef v1 = Some es
  ∧ assistantBufferRef v2 = accumulated
  ∧ messages v2 !! length (messages v)
    = Some {| id := t; role := assistant; content := accumulated;
              createdAt := iso c |}
  ∧ length (messages v2) = S (length (messages v))
  ∧ (∀ i m, messages v !! i = Some m → id m ≠ t →
            messages v2 !! i = Some m)
  ∧ (∀ d, JSON_parse d = None → deltaOf JSON_parse d = d)
  ∧ (∀ d props s,
       JSON_parse d = Some (JObj props) → ownProp "delta" props = JStr s →
       deltaOf JSON_parse d = s).
Proof.
  intros Hb. cbv zeta. unfold exec. rewrite openSSE_bound by done.
  cbn [fst snd].
  rewrite (run_tokens _ ("asst-" +:+ pretty (now c)))
    by apply opened_isOpen.
  split; [|split; [|split; [|split; [|split; [|split]]]]].
  - cbn. by rewrite length_closedCurrent.
  - by destruct datas.
  - destruct datas as [|d ds].
    + cbn. by rewrite list_lookup_middle.
    + cbv zeta. cbn [messages with_messages assistantBufferRef opened
                      with_assistantBufferRef].
      unfold updateContent.
      rewrite list_lookup_fmap, list_lookup_middle by done. cbn.
      by rewrite bool_decide_eq_true_2.
  - destruct datas as [|d ds]; cbn.
    + rewrite length_app. cbn. lia.
    + unfold updateContent. rewrite length_fmap, length_app. cbn. lia.
  - intros i m Hm Hid. destruct datas as [|d ds]; cbn.
    + by apply lookup_app_l_Some.
    + unfold updateContent. rewrite list_lookup_fmap.
      rewrite (lookup_app_l_Some _ _ _ _ Hm). cbn.
      by rewrite bool_decide_eq_false_2.
  - intros d Hd. unfold deltaOf, or_else. rewrite Hd. by case_bool_decide.
  - intros d props s Hd Hs. unfold deltaOf. rewrite Hd. cbn. by rewrite Hs.
Qed.

End Properties.

(** ** The properties at concrete inputs *)

Lemma stale_events_are_ignored_witness :
  reachable sample_JSON_parse streaming_view
  ∧ bound (encounterId streaming_view) = true
  ∧ isOpen streaming_view 0
  ∧ isClosed (exec (openSSE clock5) streaming_view) 0
  ∧ ∀ acts ev,
      let w := run sample_JSON_parse acts
                 (exec (openSSE clock5) streaming_view) in
      dispatchEvent sample_JSON_parse 0 ev w = (Normal (), w, []).
Proof.
  assert (reachable sample_JSON_parse streaming_view) as Hr.
  { exists [Submit (Some "hi") clock1; Settle (Resolved true None) clock1],
      (Some "enc-1").
    reflexivity. }
  assert (bound (encounterId streaming_view) = true) as Hb
    by (vm_compute; reflexivity).
  assert (isOpen streaming_view 0) as Ho.
  { exists "asst-1". vm_compute. reflexivity. }
  destruct (stale_events_are_ignored sample_JSON_parse streaming_view 0
              clock5 Hr Hb Ho) as (_ & Hc & _ & _ & Hstay).
  split; [exact Hr |]. split; [exact Hb |]. split; [exact Ho |].
  split; [exact Hc |].
  intros acts ev. exact (proj1 (proj2 (Hstay _ 0 acts ev Hc))).
Defined.

Lemma token_deltas_accumulate_witness :
  bound (encounterId (initialView (Some "enc-1"))) = true
  ∧ messages
      (run sample_JSON_parse
         (tokens 0 [deltaPayload "Hel"; "lo, "; deltaPayload "world"])
         (exec (openSSE clock5) (initialView (Some "enc-1"))))
    !! 0
    = Some {| id := "asst-5"; role := assistant; content := "Hello, world";
              createdAt := iso clock5 |}.
Proof.
  split; [vm_compute; reflexivity |].
  destruct (token_deltas_accumulate sample_JSON_parse
              (initialView (Some "enc-1")) clock5
              [deltaPayload "Hel"; "lo, "; deltaPayload "world"] eq_refl)
    as (_ & _ & Hentry & _).
  exact Hentry.
Defined.

Lemma end_consult_always_presents_a_note_witness :
  let m := handleEndConsult Rejected (Resolved false None)
             "2025/9/1 12:00:00" in
  bound (encounterId (initialView (Some "enc-1"))) = true
  ∧ effects m (initialView (Some "enc-1"))
    = [PostEnd "enc-1"; ConsoleError; PostClinicalNote "enc-1"; ConsoleError]
  ∧ noteOpen (exec m (initialView (Some "enc-1"))) = true
  ∧ noteMD (exec m (initialView (Some "enc-1")))
    = fallbackNote None "2025/9/1 12:00:00".
Proof.
  cbv zeta.
  destruct (end_consult_always_presents_a_note (initialView (Some "enc-1"))
              Rejected (Resolved false None) "2025/9/1 12:00:00" eq_refl)
    as (_ & Hlog & Hopen & _ & _ & Hfall).
  split; [vm_compute; reflexivity |]. split; [exact Hlog |].
  split; [exact Hopen |]. exact (proj1 (Hfall eq_refl)).
Defined.

Lemma bootstrap_seeds_two_entries_witness :
  bound (encounterId (initialView (Some "enc-1"))) = true
  ∧ "X" ≠ ""
  ∧ messages
      (exec (mountEffect (Resolved true (Some {| fm_content := Some "X" |}))
               false clock4 clock4)
         (initialView (Some "enc-1")))
    = [ {| id := "sys-4"; role := system; content := disclaimer;
           createdAt := iso clock4 |};
        {| id := "asst-5"; role := assistant; content := "X";
           createdAt := iso clock4 |} ].
Proof.
  split; [vm_compute; reflexivity |].
  assert ("X" ≠ "") as HX by discriminate.
  split; [exact HX |].
  destruct (bootstrap_seeds_two_entries (initialView (Some "enc-1"))
              (Resolved true (Some {| fm_content := Some "X" |}))
              clock4 clock4 eq_refl) as (Hok & _).
  exact (Hok "X" eq_refl HX).
Defined.

Lemma transport_error_keeps_partial_content_witness :
  let v := run sample_JSON_parse (tokens 0 ["par"; "tial"]) streaming_view in
  let v' := exec (dispatchEvent sample_JSON_parse 0 error) v in
  isOpen v 0
  ∧ content <$> messages v = ["hi"; "partial"]
  ∧ messages v' = messages v
  ∧ isStreaming v' = false
  ∧ sseRef v' = None
  ∧ isClosed v' 0.
Proof.
  cbv zeta.
  assert (isOpen (run sample_JSON_parse (tokens 0 ["par"; "tial"])
                    streaming_view) 0) as Ho.
  { exists "asst-1". vm_compute. reflexivity. }
  destruct (transport_error_keeps_partial_content sample_JSON_parse
              (run sample_JSON_parse (tokens 0 ["par"; "tial"])
                 streaming_view) 0) as (Hm & _ & _ & Hfail).
  destruct (Hfail Ho) as (Hs & Href & Hc).
  split; [exact Ho |]. split; [vm_compute; reflexivity |].
  split; [exact Hm |]. split; [exact Hs |]. split; [exact Href | exact Hc].
Defined.

Lemma post_failure_keeps_optimistic_entry_witness :
  let v := initialView (Some "enc-1") in
  bound (encounterId v) = true
  ∧ trim (default (input v) (Some " hi ")) ≠ ""
  ∧ sendMessage (Some " hi ") clock1 Rejected clock5 v
    = (Normal (),
       with_isSending false
         (with_input ""
            (with_messages
               [ {| id := "user-1"; role := user; content := "hi";
                    createdAt := iso clock1 |} ] v)),
       [PostMessage "enc-1" "hi"; ConsoleError]).
Proof.
  cbv zeta.
  assert (trim (default (input (initialView (Some "enc-1"))) (Some " hi "))
          ≠ "") as Hc by (vm_compute; discriminate).
  split; [vm_compute; reflexivity |]. split; [exact Hc |].
  exact (proj1 (post_failure_keeps_optimistic_entry
                  (initialView (Some "enc-1")) (Some " hi ") clock1 clock5
                  Rejected eq_refl Hc) eq_refl).
Defined.

Lemma blank_or_unbound_submission_is_inert_witness :
  trim (default (input streaming_view) (Some ("  　" +:+ nl))) = ""
  ∧ exec (sendMessage (Some ("  　" +:+ nl)) clock4 (Resolved true None) clock5)
      streaming_view
    = streaming_view
  ∧ bound (encounterId (initialView None)) = false
  ∧ sendMessage (Some "hi") clock4 (Resolved true None) clock5
      (initialView None)
    = (Normal (), initialView None, [RouterPush "/"]).
Proof.
  assert (trim (default (input streaming_view) (Some ("  　" +:+ nl))) = "")
    as Hblank by (vm_compute; reflexivity).
  split; [exact Hblank |].
  split.
  - exact (proj1 (proj1 (blank_or_unbound_submission_is_inert streaming_view
                           (Some ("  　" +:+ nl)) clock4 clock5
                           (Resolved true None)) Hblank)).
  - split; [reflexivity |].
    exact (proj2 (proj2 (blank_or_unbound_submission_is_inert
                           (initialView None) (Some "hi") clock4 clock5
                           (Resolved true None)))
             eq_refl).
Defined.

(** ** Where the specification and the page part ways *)

(** A greeting whose content is the empty text is replaced by the default
    greeting. *)
Lemma empty_greeting_falls_back :
  let v' := exec (mountEffect (Resolved true (Some {| fm_content := Some "" |}))
                    false clock4 clock4)
              (initialView (Some "enc-1")) in
  content <$> messages v' = [disclaimer; defaultGreeting]
  ∧ content <$> messages v' ≠ [disclaimer; ""].
Proof. cbv zeta. split; [vm_compute; reflexivity | vm_compute; discriminate]. Qed.

(** C8, at a state the page reaches.  A message is sent before the
    greeting arrives, the greeting arrives at 4 ms and is given the id
    [asst-5] ([Date.now() + 1]), and the POST succeeds at 5 ms, so that
    the stream's entry is given [asst-5] too ([Date.now()]).  The greeting
    is not the pending entry, yet the first token of the stream rewrites
    it as well: the update of the page and the update of the
    specification part ways. *)
Theorem updateContent_rewrites_finalized_greeting :
  let v' := exec (dispatchEvent sample_JSON_parse 0 (token "zzz"))
              racing_view in
  reachable sample_JSON_parse racing_view
  ∧ sseRef racing_view = Some 0
  ∧ id <$> messages racing_view = ["sys-4"; "asst-5"; "asst-5"]
  ∧ content <$> messages racing_view = [disclaimer; "hello"; ""]
  ∧ messages v' = updateContent "asst-5" "zzz" (messages racing_view)
  ∧ content <$> messages v' = [disclaimer; "zzz"; "zzz"]
  ∧ content <$> updateContent_spec (Some 2) "asst-5" "zzz"
                  (messages racing_view)
    = [disclaimer; "hello"; "zzz"]
  ∧ updateContent "asst-5" "zzz" (messages racing_view)
    ≠ updateContent_spec (Some 2) "asst-5" "zzz" (messages racing_view).
Proof.
  cbv zeta. split.
  { exists [Submit (Some "hi") clock1;
            Mount (Resolved true (Some {| fm_content := Some "hello" |}))
              false clock4 clock4;
            Settle (Resolved true None) clock5],
      (Some "enc-1").
    reflexivity. }
  split; [vm_compute; reflexivity |]. split; [vm_compute; reflexivity |].
  split; [vm_compute; reflexivity |]. split; [vm_compute; reflexivity |].
  split; [vm_compute; reflexivity |]. split; [vm_compute; reflexivity |].
  vm_compute. discriminate.
Qed.

(** * Further properties of the pages *)

#[local] Arguments pretty {_ _} _ : simpl never.
#[local] Arguments trim _ : simpl never.
#[local] Arguments openSSE : simpl never.
#[local] Arguments generateClinicalNote : simpl never.

(** ** White space *)

(** Case analysis on a test of [is_ws1], [is_ws2] or [is_ws3] that came
    out true, closing the goal by evaluation. *)
Ltac ws_cases :=
  repeat match goal with
         | H : (_ && _)%bool = true |- _ =>
             apply andb_true_iff in H as [? ?]
         | H : (_ || _)%bool = true |- _ =>
             apply orb_true_iff in H as [H|H]
         end;
  repeat match goal with
         | H : (_ =? _)%nat = true |- _ => apply Nat.eqb_eq in H; subst
         end;
  repeat match goal with
         | H : (_ <=? _)%nat = true |- _ => rewrite ?H; clear H
         end;
  rewrite ?orb_true_r; reflexivity.

Lemma is_ws1_wsByte (a : ascii) : is_ws1 a = true → wsByte a = true.
Proof.
  unfold is_ws1, wsByte. cbv zeta. generalize (nat_of_ascii a).
  intros x H. ws_cases.
Qed.

Lemma is_ws2_wsByte (a b : ascii) :
  is_ws2 a b = true → wsByte a = true ∧ wsByte b = true.
Proof.
  unfold is_ws2, wsByte. cbv zeta.
  generalize (nat_of_ascii a) (nat_of_ascii b).
  intros x y H. split; ws_cases.
Qed.

Lemma is_ws3_wsByte (a b c : ascii) :
  is_ws3 a b c = true →
  wsByte a = true ∧ wsByte b = true ∧ wsByte c = true.
Proof.
  unfold is_ws3, wsByte. cbv zeta.
  generalize (nat_of_ascii a) (nat_of_ascii b) (nat_of_ascii c).
  intros x y z H. split; [|split]; ws_cases.
Qed.

Lemma hasSolid_trimStart_fuel (n : nat) (s : string) :
  (String.length s ≤ n)%nat →
  hasSolid s = true → hasSolid (trimStart s) = true.
Proof.
  revert s. induction n as [|n IH]; intros s Hn Hs.
  { destruct s; [done | cbn in Hn; lia]. }
  destruct s as [|a s1]; [done |]. cbn in Hn.
  cbn [trimStart]. destruct (is_ws1 a) eqn:H1.
  { apply IH; [lia |]. cbn in Hs. by rewrite (is_ws1_wsByte _ H1) in Hs. }
  destruct s1 as [|b s2]; [done |]. cbn in Hn.
  destruct (is_ws2 a b) eqn:H2.
  { apply IH; [lia |]. destruct (is_ws2_wsByte _ _ H2) as [Ha Hb].
    cbn in Hs. by rewrite Ha, Hb in Hs. }
  destruct s2 as [|c s3]; [done |]. cbn in Hn.
  destruct (is_ws3 a b c) eqn:H3; [|done].
  apply IH; [lia |]. destruct (is_ws3_wsByte _ _ _ H3) as (Ha & Hb & Hc).
  cbn in Hs. by rewrite Ha, Hb, Hc in Hs.
Qed.

Lemma hasSolid_trimStart_rev_fuel (n : nat) (s : string) :
  (String.length s ≤ n)%nat → hasSolid s = true →
  hasSolid (trimStart_rev s) = true.
Proof.
  revert s. induction n as [|n IH]; intros s Hn Hs.
  { destruct s; [done | cbn in Hn; lia]. }
  destruct s as [|a s1]; [done |]. cbn in Hn.
  cbn [trimStart_rev]. destruct (is_ws1 a) eqn:H1.
  { apply IH; [lia |]. cbn in Hs. by rewrite (is_ws1_wsByte _ H1) in Hs. }
  destruct s1 as [|b s2]; [done |]. cbn in Hn.
  destruct (is_ws2 b a) eqn:H2.
  { apply IH; [lia |]. destruct (is_ws2_wsByte _ _ H2) as [Hb Ha].
    cbn in Hs. by rewrite Ha, Hb in Hs. }
  destruct s2 as [|c s3]; [done |]. cbn in Hn.
  destruct (is_ws3 c b a) eqn:H3; [|done].
  apply IH; [lia |]. destruct (is_ws3_wsByte _ _ _ H3) as (Hc & Hb & Ha).
  cbn in Hs. by rewrite Ha, Hb, Hc in Hs.
Qed.

Lemma hasSolid_rev_app (s acc : string) :
  hasSolid (String.rev_app s acc) = hasSolid s || hasSolid acc.
Proof.
  revert acc. induction s as [|a s IH]; intros acc; [done |].
  cbn [String.rev_app hasSolid]. rewrite IH. cbn [hasSolid].
  destruct (wsByte a), (hasSolid s), (hasSolid acc); done.
Qed.

Lemma hasSolid_rev (s : string) : hasSolid (String.rev s) = hasSolid s.
Proof. unfold String.rev. rewrite hasSolid_rev_app. cbn. by rewrite orb_false_r. Qed.

Lemma hasSolid_app (a b : string) :
  hasSolid (a +:+ b) = hasSolid a || hasSolid b.
Proof.
  induction a as [|x a IH]; [done |].
  rewrite string_app_cons. cbn [hasSolid]. rewrite IH. by rewrite orb_assoc.
Qed.

(** A text with a byte outside every white space does not trim to
    nothing. *)
Lemma trim_solid (s : string) : hasSolid s = true → trim s ≠ "".
Proof.
  intros Hs. unfold trim, trimEnd.
  assert (hasSolid (String.rev (trimStart_rev (String.rev (trimStart s))))
          = true) as H.
  { rewrite hasSolid_rev.
    apply (hasSolid_trimStart_rev_fuel _ _ (le_n _)).
    rewrite hasSolid_rev. by apply (hasSolid_trimStart_fuel _ _ (le_n _)). }
  intros Heq. rewrite Heq in H. done.
Qed.

(** ** The stream and the input *)

Section Streaming.

Variable JSON_parse : string → option JsValue.

Lemma mountEffect_stream (r : Response FirstMessage) (aborted : bool)
    (cSys cAsst : Clock) (v : View) :
  StreamStep v (exec (mountEffect r aborted cSys cAsst) v).
Proof.
  unfold_eff. destruct (bound (encounterId v)); cbn; [|by apply stream_same].
  destruct r as [|[] [d|]], aborted; cbn; by apply stream_same.
Qed.

Lemma cleanup_stream (v : View) : StreamStep v (exec cleanup v).
Proof.
  unfold_eff. destruct (sseRef v) as [es|] eqn:E; cbn.
  - apply (stream_close _ _ es); auto.
  - by apply stream_same.
Qed.

Lemma sendMessage_submit_stream (text : option string) (c : Clock) (v : View) :
  StreamStep v (exec (sendMessage_submit text c ;;; ret ()) v).
Proof.
  unfold_eff. repeat (case_bool_decide; cbn); by apply stream_same.
Qed.

Lemma sendMessage_settle_stream (r : Response unit) (c : Clock) (v : View) :
  StreamStep v (exec (sendMessage_settle r c) v).
Proof.
  unfold exec.
  destruct (postFailed r) eqn:Hf.
  { rewrite sendMessage_settle_failed by done. by apply stream_same. }
  destruct (bound (encounterId v)) eqn:Hb.
  - rewrite sendMessage_settle_succeeded by done. by apply stream_open.
  - destruct (sendMessage_settle_unbound r c v Hb) as [log ->].
    by apply stream_same.
Qed.

Lemma dispatchEvent_stream (es : nat) (ev : SseEvent) (v : View) :
  StreamStep v (exec (dispatchEvent JSON_parse es ev) v).
Proof.
  unfold exec.
  destruct (eventSources v !! es) as [[[] [t|]]|] eqn:E.
  1,2,4,5: rewrite dispatchEvent_unheard by (intros [t' Ht']; congruence);
    by apply stream_same.
  rewrite (dispatchEvent_open _ _ _ t) by done.
  destruct ev as [data| |].
  - rewrite onToken_step. by apply stream_same.
  - apply (stream_close _ _ es); [done |]. left. by exists t.
  - apply (stream_close _ _ es); [done |]. left. by exists t.
Qed.

Lemma generateClinicalNote_stream (r : Response ClinicalNote)
    (locale : string) (v : View) :
  ∃ log v', generateClinicalNote r locale v = (Normal (), v', log)
            ∧ eventSources v' = eventSources v
            ∧ isStreaming v' = isStreaming v.
Proof.
  unfold_eff. destruct (bound (encounterId v)); cbn; [|by eexists _, _].
  destruct r as [|[] [[md [chief|]]|]]; cbn;
    try case_bool_decide; cbn; by eexists _, _.
Qed.

Lemma handleEndConsult_stream (rEnd : Response unit)
    (rNote : Response ClinicalNote) (locale : string) (v : View) :
  StreamStep v (exec (handleEndConsult rEnd rNote locale) v).
Proof.
  destruct (generateClinicalNote_stream rNote locale v)
    as (log & v' & Hg & Hes & Hs).
  unfold exec, handleEndConsult, try_catch, bind, fetch, await, get, emit,
    consoleError, ret, throw.
  destruct rEnd as [|ok j]; cbn; rewrite Hg; cbn; by apply stream_same.
Qed.

Lemma perform_stream (a : Action) (v : View) :
  StreamStep v (exec (perform JSON_parse a) v).
Proof.
  destruct a; cbn [perform].
  - apply mountEffect_stream.
  - apply cleanup_stream.
  - by apply stream_same.
  - apply sendMessage_submit_stream.
  - apply sendMessage_settle_stream.
  - apply dispatchEvent_stream.
  - apply handleEndConsult_stream.
  - by apply stream_same.
Qed.

(** Closing the EventSource [sseRef] names, or an open one, leaves none
    open. *)
Lemma close_current_leaves_none_open (v : View) (cur : nat)
    (l : list EventSource) :
  onlyCurrentOpen v →
  isOpen v cur ∨ sseRef v = Some cur →
  l = alter markClosed cur (eventSources v) →
  ∀ es e, l !! es = Some e → closed e = true.
Proof.
  intros Hinv Hc -> es e He.
  assert (sseRef v = Some cur) as Hcur.
  { destruct Hc as [[t Ht]|Hc]; [|done]. by apply (Hinv _ _ Ht). }
  destruct (closed e) eqn:Ho; [done |]. exfalso.
  destruct (decide (cur = es)) as [->|Hne].
  - rewrite list_lookup_alter_eq in He.
    destruct (eventSources v !! es) as [e0|]; [|done].
    injection He as <-. done.
  - rewrite list_lookup_alter_ne in He by done.
    specialize (Hinv _ _ He Ho). congruence.
Qed.

Lemma StreamStep_streamingWhileOpen (v v' : View) :
  StreamStep v v' → onlyCurrentOpen v →
  streamingWhileOpen v → streamingWhileOpen v'.
Proof.
  unfold streamingWhileOpen, isOpen.
  intros [Hes Hs|cur Hes Hc|Hs] Hinv Hv es [t Ht].
  - rewrite Hs. apply (Hv es). exists t. by rewrite <- Hes.
  - by specialize (close_current_leaves_none_open v cur _ Hinv Hc Hes
                     es _ Ht).
  - done.
Qed.

Lemma run_streamingWhileOpen (acts : list Action) (v : View) :
  onlyCurrentOpen v → streamingWhileOpen v →
  streamingWhileOpen (run JSON_parse acts v).
Proof.
  induction acts as [|a acts IH] using rev_ind; [done |].
  intros Hinv Hv. rewrite run_snoc.
  eapply StreamStep_streamingWhileOpen.
  - apply perform_stream.
  - by apply run_onlyCurrentOpen.
  - by apply IH.
Qed.

(** X1.  On every page reached from its initial state there is at most
    one open stream, and while it is open the page is streaming: the text
    field and the send button are disabled. *)
Theorem input_is_disabled_while_streaming (v : View) (es : nat) :
  reachable JSON_parse v →
  isOpen v es →
  sseRef v = Some es
  ∧ (∀ es', isOpen v es' → es' = es)
  ∧ isStreaming v = true
  ∧ MessageInput_disabled v = true
  ∧ sendButton_disabled v = true.
Proof.
  intros Hr Ho.
  assert (Hinv := reachable_onlyCurrentOpen JSON_parse v Hr).
  assert (isStreaming v = true) as Hs.
  { destruct Hr as (acts & encounter & ->).
    eapply run_streamingWhileOpen; [| |exact Ho].
    - intros es' e He. cbn in He. by rewrite lookup_nil in He.
    - intros es' [t Ht]. cbn in Ht. by rewrite lookup_nil in Ht. }
  destruct Ho as [t Ht].
  split; [by apply (Hinv _ _ Ht) |]. split.
  { intros es' [t' Ht']. specialize (Hinv _ _ Ht eq_refl).
    specialize (reachable_onlyCurrentOpen JSON_parse v Hr _ _ Ht' eq_refl).
    congruence. }
  unfold sendButton_disabled, MessageInput_disabled. rewrite Hs.
  by rewrite orb_true_r.
Qed.

(** X2.  The cleanup of the mount effect, on every page reached from its
    initial state: afterwards no EventSource is open and [sseRef] is
    empty, the transcript is as it was and nothing is requested.  Every
    EventSource created before the cleanup is closed and stays closed
    whatever the page does next, so that no event delivered on it runs a
    listener again.  The cleanup does not keep the page from streaming
    again: [openSSE] does not ask whether the effect was cleaned up, and
    a POST that succeeds after the cleanup opens a new EventSource. *)
Theorem cleanup_closes_the_stream (v : View) :
  reachable JSON_parse v →
  let v' := exec cleanup v in
  (∀ es, ¬ isOpen v' es)
  ∧ sseRef v' = None
  ∧ messages v' = messages v
  ∧ effects cleanup v = []
  ∧ (∀ es, es < length (eventSources v) →
       isClosed v' es
       ∧ ∀ acts ev,
           let w := run JSON_parse acts v' in
           isClosed w es
           ∧ dispatchEvent JSON_parse es ev w = (Normal (), w, []))
  ∧ (bound (encounterId v) = true →
     ∀ r c, postFailed r = false →
       let w := exec (sendMessage_settle r c) v' in
       isOpen w (length (eventSources v))
       ∧ sseRef w = Some (length (eventSources v))
       ∧ isStreaming w = true
       ∧ effects (sendMessage_settle r c) v'
         = [NewEventSource (String_encounterId (encounterId v))]).
Proof.
  intros Hr. cbv zeta.
  assert (Hinv := reachable_onlyCurrentOpen JSON_parse v Hr).
  assert (∀ es e, eventSources (exec cleanup v) !! es = Some e →
                  closed e = true) as Hall.
  { intros es e. unfold_eff.
    destruct (sseRef v) as [cur|] eqn:Hcur; cbn; intros He.
    - exact (close_current_leaves_none_open v cur _ Hinv
               (or_intror Hcur) eq_refl es _ He).
    - destruct (closed e) eqn:Hc; [done |].
      specialize (Hinv _ _ He Hc). congruence. }
  assert (length (eventSources (exec cleanup v)) = length (eventSources v))
    as Hlen.
  { unfold_eff. destruct (sseRef v); cbn; [apply length_alter | done]. }
  assert (encounterId (exec cleanup v) = encounterId v) as Henc.
  { unfold_eff. by destruct (sseRef v). }
  split; [|split; [|split; [|split; [|split]]]].
  - intros es [t Ht]. by specialize (Hall _ _ Ht).
  - unfold_eff. by destruct (sseRef v).
  - unfold_eff. by destruct (sseRef v).
  - unfold_eff. by destruct (sseRef v).
  - intros es Hlt.
    assert (isClosed (exec cleanup v) es) as Hc.
    { unfold isClosed. rewrite <- Hlen in Hlt.
      apply lookup_lt_is_Some in Hlt as [e He].
      rewrite He. cbn. by rewrite (Hall _ _ He). }
    split; [exact Hc |]. intros acts ev.
    assert (Hw := run_closed JSON_parse acts _ es Hc).
    split; [exact Hw | by apply dispatchEvent_closed].
  - intros Hb r c Hf. set (v' := exec cleanup v) in *.
    assert (bound (encounterId v') = true) as Hb' by (by rewrite Henc).
    unfold effects, exec.
    rewrite (sendMessage_settle_succeeded r c v' Hf Hb').
    cbn [fst snd]. rewrite Henc, <- Hlen.
    split; [|split; [|split]]; [| | |done].
    + eexists. apply opened_isOpen.
    + cbn. by rewrite length_closedCurrent.
    + done.
Qed.

End Streaming.

(** ** Composing a message *)

(** X3.  A chip keeps what was typed, adds its template on a line of its
    own (or alone, when nothing was typed), requests nothing and leaves
    the transcript alone; whatever was typed before, the result is not
    blank, so that sending it on a page with an encounter id posts its
    trimmed text. *)
Theorem chip_keeps_input_and_is_sendable (v : View) (kind : ChipKind)
    (c : Clock) :
  let v1 := exec (handleChip kind) v in
  input v1
  = (if bool_decide (input v = "") then "" else input v +:+ nl)
    +:+ templates kind
  ∧ (input v = "" → input v1 = templates kind)
  ∧ effects (handleChip kind) v = []
  ∧ messages v1 = messages v
  ∧ trim (input v1) ≠ ""
  ∧ (bound (encounterId v) = true →
     effects (sendMessage_submit None c) v1
     = [PostMessage (String_encounterId (encounterId v))
          (trim (input v1))]).
Proof.
  cbv zeta.
  assert (input (exec (handleChip kind) v)
          = (if bool_decide (input v = "") then "" else input v +:+ nl)
            +:+ templates kind) as Hin by reflexivity.
  assert (trim (input (exec (handleChip kind) v)) ≠ "") as Hsolid.
  { rewrite Hin. apply trim_solid. rewrite hasSolid_app.
    assert (hasSolid (templates kind) = true) as ->
      by (destruct kind; vm_compute; reflexivity).
    apply orb_true_r. }
  split; [exact Hin |]. split.
  { intros He. rewrite Hin, He. reflexivity. }
  split; [reflexivity |]. split; [reflexivity |]. split; [exact Hsolid |].
  intros Hb. unfold effects.
  rewrite (sendMessage_submit_accepted (exec (handleChip kind) v) None c);
    done.
Qed.

(** X4.  The keyboard of the message input: every key but Enter, and
    Enter with Shift, leaves the view alone and requests nothing; Enter on
    a blank input prevents the default and does no more; Enter on an
    input that is not blank, on a page with an encounter id, posts the
    trimmed input, which is the case whenever the send button is
    enabled. *)
Theorem only_plain_Enter_sends (v : View) (e : KeyboardEvent) (c : Clock) :
  (key e ≠ "Enter" ∨ shiftKey e = true →
     handleKeyDown e c v = (Normal (false, false), v, []))
  ∧ (key e = "Enter" → shiftKey e = false →
     bound (encounterId v) = true → trim (input v) = "" →
     handleKeyDown e c v = (Normal (true, false), v, []))
  ∧ (key e = "Enter" → shiftKey e = false →
     bound (encounterId v) = true → sendButton_disabled v = false →
     completion (handleKeyDown e c) v = Normal (true, true)
     ∧ effects (handleKeyDown e c) v
       = [PostMessage (String_encounterId (encounterId v))
            (trim (input v))]
     ∧ messages (exec (handleKeyDown e c) v)
       = messages v ++ [ {| id := "user-" +:+ pretty (now c); role := user;
                            content := trim (input v);
                            createdAt := iso c |} ]).
Proof.
  split; [|split].
  - intros [Hk|Hs]; unfold handleKeyDown.
    + by rewrite bool_decide_eq_false_2.
    + rewrite Hs. by rewrite andb_false_r.
  - intros Hk Hs Hb Hblank. unfold handleKeyDown.
    rewrite bool_decide_eq_true_2, Hs by done. cbn [negb andb].
    unfold_eff. rewrite bound_or_default, Hb. cbn. rewrite Hblank. done.
  - intros Hk Hs Hb Hen. unfold handleKeyDown, completion, effects, exec.
    rewrite bool_decide_eq_true_2, Hs by done. cbn [negb andb].
    unfold sendButton_disabled in Hen.
    apply orb_false_iff in Hen as [_ Hen].
    apply bool_decide_eq_false in Hen.
    unfold bind. rewrite (sendMessage_submit_accepted v None c) by done.
    cbn. done.
Qed.

(** ** The clinical note *)

Lemma handleEndConsult_note (v : View) (rEnd : Response unit)
    (rNote : Response ClinicalNote) (locale : string) :
  bound (encounterId v) = true →
  let v' := exec (handleEndConsult rEnd rNote locale) v in
  encounterId v' = encounterId v
  ∧ noteMD v' = match rNote with
                | Resolved true (Some data) => or_default (note_md data) ""
                | _ => fallbackNote (chiefComplaint v) locale
                end.
Proof.
  intros Hb. cbv zeta. unfold_eff.
  destruct rEnd as [|okE jE]; cbn; rewrite Hb; cbn;
    destruct rNote as [|[] [[md [chief|]]|]]; cbn;
    try case_bool_decide; done.
Qed.

(** X5.  Ending the consultation on a page with an encounter id when the
    note request succeeds with a readable body: the note shown is the
    text of [note_md] as it came, or the empty text when there is none
    (the fallback is not used); a chief complaint that is not empty
    replaces the one of the view, an empty or missing one leaves it; the
    dialog is open, nothing is logged for the note and the transcript is
    untouched. *)
Theorem note_from_backend_is_adopted (v : View) (rEnd : Response unit)
    (data : ClinicalNote) (locale : string) :
  bound (encounterId v) = true →
  let m := handleEndConsult rEnd (Resolved true (Some data)) locale in
  let encounter := String_encounterId (encounterId v) in
  (∀ T, note_md data = Some T → noteMD (exec m v) = T)
  ∧ (note_md data = None → noteMD (exec m v) = "")
  ∧ (∀ chief, chief_complaint data = Some chief → chief ≠ "" →
       chiefComplaint (exec m v) = Some chief)
  ∧ (chief_complaint data = None ∨ chief_complaint data = Some "" →
       chiefComplaint (exec m v) = chiefComplaint v)
  ∧ noteOpen (exec m v) = true
  ∧ noteLoading (exec m v) = false
  ∧ messages (exec m v) = messages v
  ∧ effects m v
    = [PostEnd encounter]
      ++ (if rEnd is Rejected then [ConsoleError] else [])
      ++ [PostClinicalNote encounter].
Proof.
  intros Hb. cbv zeta. unfold_eff.
  destruct data as [md chief].
  assert (∀ T, md = Some T → or_default md "" = T) as Hmd.
  { intros T ->. unfold or_default, or_else. by case_bool_decide. }
  destruct rEnd as [|okE jE]; cbn; rewrite Hb; cbn;
    (destruct chief as [chief|]; cbn;
     [destruct (decide (chief = "")) as [->|Hne];
      [rewrite bool_decide_eq_true_2 by done
      |rewrite bool_decide_eq_false_2 by done]; cbn |]);
    (split; [exact Hmd |]);
    (split; [by intros -> |]);
    (split; [intros c' Hc Hne'; congruence |]);
    (split; [intros [Hc|Hc]; congruence |]);
    done.
Qed.

(** X6.  Whatever note handleEndConsult leaves in the dialog, copying
    hands exactly that text to the clipboard and saving offers exactly
    that text as a Markdown file named after the encounter and the first
    ten characters of the timestamp; a refused copy is only logged.
    Closing the dialog keeps the note and requests nothing; the last
    button also navigates to the entry point.  No button asks for the
    note again. *)
Theorem copy_and_save_reproduce_the_note (v : View) (rEnd : Response unit)
    (rNote : Response ClinicalNote) (locale isoNow : string) :
  bound (encounterId v) = true →
  let v' := exec (handleEndConsult rEnd rNote locale) v in
  copyNote true v' = [WriteClipboard (noteMD v')]
  ∧ copyNote false v' = [WriteClipboard (noteMD v'); LogError]
  ∧ saveNote isoNow v'
    = [DownloadFile
         ("clinical_note_" +:+ String_encounterId (encounterId v) +:+ "_"
          +:+ substring 0 10 isoNow +:+ ".md")
         (noteMD v') "text/markdown;charset=utf-8"]
  ∧ (∀ data T, rNote = Resolved true (Some data) → note_md data = Some T →
       copyNote true v' = [WriteClipboard T]
       ∧ ∃ name mime, saveNote isoNow v' = [DownloadFile name T mime])
  ∧ (failed rNote = true →
       copyNote true v'
       = [WriteClipboard (fallbackNote (chiefComplaint v) locale)])
  ∧ closeDialog v' = (Normal (), with_noteOpen false v', [])
  ∧ finishDialog v' = (Normal (), with_noteOpen false v', [RouterPush "/"]).
Proof.
  intros Hb. cbv zeta.
  destruct (handleEndConsult_note v rEnd rNote locale Hb) as [Henc Hmd].
  unfold copyNote, saveNote, downloadMarkdown. rewrite Henc.
  split; [done |]. split; [done |]. split; [done |]. split; [|split].
  - intros data T -> HT. rewrite Hmd, HT.
    assert (or_default (Some T) "" = T) as ->.
    { unfold or_default, or_else. by case_bool_decide. }
    split; [done |]. by eexists _, _.
  - intros Hf. rewrite Hmd. by destruct rNote as [|[] [d|]].
  - done.
Qed.

(** X7.  The page without the note dialog: however the end request
    settles the page navigates to the entry point exactly once, after the
    request; a rejection is only logged; the view is untouched and no
    note is requested. *)
Theorem plain_end_always_returns_home (v : View) (rEnd : Response unit) :
  PlainPage.handleEndConsult rEnd v
  = (Normal (), v,
     [PostEnd (String_encounterId (encounterId v))]
     ++ (if rEnd is Rejected then [ConsoleError] else [])
     ++ [RouterPush "/"]).
Proof. unfold PlainPage.handleEndConsult. unfold_eff. by destruct rEnd. Qed.

(** X8.  A greeting that settles after the mount effect was cleaned up:
    when the fetch resolves with a readable body or a status that is not
    a success, the transcript is left as it is; when the fetch rejects,
    or its body cannot be read, the disclaimer and the default greeting
    replace the transcript all the same. *)
Theorem aborted_boot (v : View) (r : Response FirstMessage)
    (cSys cAsst : Clock) :
  bound (encounterId v) = true →
  let v' := exec (mountEffect r true cSys cAsst) v in
  (r = Rejected ∨ r = Resolved true None →
     messages v' = seed cSys cAsst defaultGreeting)
  ∧ (r ≠ Rejected → r ≠ Resolved true None → v' = v).
Proof.
  intros Hb. cbv zeta. unfold_eff. rewrite Hb. cbn. split.
  - by intros [-> | ->].
  - intros H1 H2. by destruct r as [|[] [d|]].
Qed.

(** ** The to-do list *)

#[local] Arguments encodeURIComponent : simpl never.

(** X9.  Adding a to-do: a blank title only prevents the default and
    leaves the form alone.  Any other title is posted once, as typed (not
    trimmed); on a success status the title is cleared, no error is shown
    and the list is revalidated once; on any other status the title is
    kept and the error names the status; on a rejection the title is kept
    and the error is the rejection's message, or [Failed] when it has
    none.  The handler always returns and the form is never left
    pending. *)
Theorem todo_is_kept_unless_created (s : Todos.Form) (r : Settled unit) :
  (trim (Todos.title s) = "" →
     Todos.onSubmit r s = (Returned (), s, [Todos.PreventDefault]))
  ∧ (trim (Todos.title s) ≠ "" →
     match r with
     | Resolves status _ =>
         if ok status
         then Todos.onSubmit r s
              = (Returned (),
                 {| Todos.title := ""; Todos.pending := false;
                    Todos.error := None |},
                 [Todos.PreventDefault; Todos.PostTodo (Todos.title s);
                  Todos.Mutate])
         else Todos.onSubmit r s
              = (Returned (),
                 {| Todos.title := Todos.title s; Todos.pending := false;
                    Todos.error :=
                      Some ("Create failed: " +:+ pretty status) |},
                 [Todos.PreventDefault; Todos.PostTodo (Todos.title s)])
     | Rejects message =>
         Todos.onSubmit r s
         = (Returned (),
            {| Todos.title := Todos.title s; Todos.pending := false;
               Todos.error := Some (default "Failed" message) |},
            [Todos.PreventDefault; Todos.PostTodo (Todos.title s)])
     end).
Proof.
  unfold Todos.onSubmit, Todos.setPending, Todos.setError, Todos.setTitle,
    finally, catch, fetched, andThen, request, state, update, raise, pure.
  split; intros Ht; cbn.
  - by rewrite bool_decide_eq_true_2.
  - rewrite bool_decide_eq_false_2 by done.
    destruct r as [message|status body]; cbn; [done |].
    by destruct (ok status).
Qed.

(** X10.  Deleting a to-do: the DELETE is issued once; the list is
    revalidated exactly when its status is a success, and then nothing is
    logged; a rejection and any other status are logged once and leave
    the list as it is shown; the handler always returns. *)
Theorem todo_delete_revalidates_on_success (id : Z) (r : Settled unit) :
  let deleted := match r with
                 | Resolves status _ => ok status
                 | Rejects _ => false
                 end in
  Todos.handleDelete id r ()
  = (Returned (), (),
     Todos.DeleteTodo id
     :: (if deleted then [Todos.Revalidate] else [Todos.ConsoleError])).
Proof.
  unfold Todos.handleDelete, catch, fetched, andThen, request, raise, pure.
  destruct r as [message|status body]; cbn; [done |].
  by destruct (ok status).
Qed.

(** ** Paths *)

Lemma unreserved_not_percent (a : ascii) :
  unreserved a = true → a ≠ "%"%char.
Proof. intros Hu ->. vm_compute in Hu. done. Qed.

Lemma unhex_hexDigit (n : nat) : n < 16 → unhex (hexDigit n) = Some n.
Proof. intros Hn. do 16 (destruct n as [|n]; [reflexivity |]). lia. Qed.

Lemma unreserved_hexDigit (n : nat) : n < 16 → unreserved (hexDigit n) = true.
Proof. intros Hn. do 16 (destruct n as [|n]; [reflexivity |]). lia. Qed.

Lemma nat_of_ascii_lt (a : ascii) : nat_of_ascii a < 256.
Proof. apply nat_ascii_bounded. Qed.

Lemma ascii_of_halves (a : ascii) :
  ascii_of_nat (16 * (nat_of_ascii a / 16) + nat_of_ascii a mod 16) = a.
Proof. rewrite <- Nat.div_mod by lia. apply ascii_nat_embedding. Qed.

Lemma encodeURIComponent_cons (a : ascii) (s : string) :
  encodeURIComponent (String a s)
  = if unreserved a then String a (encodeURIComponent s)
    else String "%"%char
           (String (hexDigit (nat_of_ascii a / 16))
              (String (hexDigit (nat_of_ascii a mod 16))
                 (encodeURIComponent s))).
Proof. reflexivity. Qed.

Lemma decodeFuel_encode (s : string) (fuel : nat) :
  String.length (encodeURIComponent s) < fuel →
  decodeFuel fuel (encodeURIComponent s) = Some s.
Proof.
  revert fuel. induction s as [|a s IH]; intros fuel Hf.
  { destruct fuel; [cbn in Hf; lia | done]. }
  assert (Hlt := nat_of_ascii_lt a).
  assert (nat_of_ascii a / 16 < 16) as Hhi
    by (apply Nat.Div0.div_lt_upper_bound; lia).
  assert (nat_of_ascii a mod 16 < 16) as Hlo
    by (apply Nat.mod_upper_bound; lia).
  rewrite encodeURIComponent_cons in *. destruct (unreserved a) eqn:Hu.
  - destruct fuel as [|fuel]; [cbn in Hf; lia |]. cbn in Hf.
    cbn [decodeFuel].
    rewrite bool_decide_eq_false_2 by by apply unreserved_not_percent.
    rewrite IH by lia. done.
  - destruct fuel as [|fuel]; [cbn in Hf; lia |]. cbn in Hf.
    cbn [decodeFuel]. rewrite bool_decide_eq_true_2 by done.
    rewrite !unhex_hexDigit by done.
    assert (decodeFuel fuel (encodeURIComponent s) = Some s) as ->
      by (apply IH; lia).
    by rewrite ascii_of_halves.
Qed.

Lemma decodeSegment_encode (s : string) :
  decodeSegment (encodeURIComponent s) = Some s.
Proof. apply decodeFuel_encode. lia. Qed.

Lemma encode_urlSafe (s : string) :
  allBytes urlSafe (encodeURIComponent s) = true.
Proof.
  induction s as [|a s IH]; [done |].
  assert (Hlt := nat_of_ascii_lt a).
  rewrite encodeURIComponent_cons. destruct (unreserved a) eqn:Hu.
  - cbn [allBytes]. unfold urlSafe at 1. by rewrite Hu, IH.
  - cbn [allBytes]. rewrite IH. unfold urlSafe at 2 3.
    rewrite !unreserved_hexDigit.
    + reflexivity.
    + apply Nat.mod_upper_bound; lia.
    + apply Nat.Div0.div_lt_upper_bound; lia.
Qed.

Lemma allBytes_app (P : ascii → bool) (a b : string) :
  allBytes P (a +:+ b) = allBytes P a && allBytes P b.
Proof.
  induction a as [|x a IH]; [done |].
  rewrite string_app_cons. cbn [allBytes]. by rewrite IH, andb_assoc.
Qed.

(** X11.  Opening an encounter from the history: the path is [/consult/]
    followed by one segment; the segment is made of unreserved bytes and
    percent signs only, so that no slash, question mark or hash of the id
    survives in it; it decodes back to the id, and so two encounters
    never share a path. *)
Theorem history_path_names_one_encounter (id : string) :
  History.handleOpen id = "/consult/" +:+ encodeURIComponent id
  ∧ allBytes urlSafe (encodeURIComponent id) = true
  ∧ (∀ before after (c : ascii),
       encodeURIComponent id = before +:+ String c after →
       c ≠ "/"%char ∧ c ≠ "?"%char ∧ c ≠ "#"%char)
  ∧ decodeSegment (encodeURIComponent id) = Some id
  ∧ (∀ id', History.handleOpen id = History.handleOpen id' → id = id').
Proof.
  split; [done |]. split; [apply encode_urlSafe |]. split; [|split].
  - intros before after c Heq.
    assert (Hs := encode_urlSafe id). rewrite Heq, allBytes_app in Hs.
    apply andb_true_iff in Hs as [_ Hs]. cbn [allBytes] in Hs.
    apply andb_true_iff in Hs as [Hc _].
    repeat split; intros ->; vm_compute in Hc; done.
  - apply decodeSegment_encode.
  - intros id' Heq. unfold History.handleOpen in Heq.
    apply String.app_inj in Heq.
    assert (Some id = Some id') as [=]; [|done].
    by rewrite <- !decodeSegment_encode, Heq.
Qed.

(** ** The entry page *)



(** ** The history list *)

Lemma rowsOf_children (b : nat → bool) (l : list History.Encounter) :
  rowsOf (mjoin (imap (λ idx e,
                         History.Row e
                         :: (if b idx then [History.Divider] else []))
                   l))
  = l.
Proof.
  revert b. induction l as [|e l IH]; intros b; [done |].
  cbn [imap mjoin list_join]. unfold rowsOf in *.
  destruct (b 0); cbn; f_equal; apply (IH (b ∘ S)).
Qed.

Lemma dividersOf_children (b : nat → bool) (n k : nat)
    (l : list History.Encounter) :
  n = k + length l →
  (∀ idx, b idx = bool_decide (k + idx ≠ n - 1)) →
  dividersOf (mjoin (imap (λ idx e,
                             History.Row e
                             :: (if b idx then [History.Divider] else []))
                       l))
  = length l - 1.
Proof.
  revert b k. induction l as [|e l IH]; intros b k Hn Hb; [done |].
  cbn [imap mjoin list_join]. cbn [length] in Hn.
  assert (dividersOf
            (mjoin (imap ((λ idx e0,
                             History.Row e0
                             :: (if b idx then [History.Divider] else []))
                          ∘ S) l))
          = length l - 1) as Hrest.
  { apply (IH (b ∘ S) (S k)); [lia |].
    intros idx. cbn. rewrite Hb.
    by replace (k + S idx) with (S (k + idx)) by lia. }
  set (rest := mjoin _) in *. rewrite Hb.
  destruct (decide (length l = 0)) as [Hl|Hl].
  - rewrite bool_decide_eq_false_2 by lia.
    cbn [app dividersOf length]. rewrite Hrest. lia.
  - rewrite bool_decide_eq_true_2 by lia.
    cbn [app dividersOf length]. rewrite Hrest. lia.
Qed.

Lemma children_separated (b : nat → bool) (n k : nat)
    (l : list History.Encounter) :
  n = k + length l →
  (∀ idx, b idx = bool_decide (k + idx ≠ n - 1)) →
  mjoin (imap (λ idx e,
                 History.Row e
                 :: (if b idx then [History.Divider] else []))
           l)
  = separated l.
Proof.
  revert b k. induction l as [|e l IH]; intros b k Hn Hb; [done |].
  cbn [imap mjoin list_join]. cbn [length] in Hn.
  assert (mjoin (imap ((λ idx e0,
                          History.Row e0
                          :: (if b idx then [History.Divider] else []))
                       ∘ S) l)
          = separated l) as Hrest.
  { apply (IH (b ∘ S) (S k)); [lia |].
    intros idx. cbn. rewrite Hb.
    by replace (k + S idx) with (S (k + idx)) by lia. }
  set (rest := mjoin _) in *. clearbody rest. subst rest.
  rewrite Hb. destruct l as [|e' l']; cbn [length] in Hn.
  - by rewrite bool_decide_eq_false_2 by lia.
  - by rewrite bool_decide_eq_true_2 by lia.
Qed.

(** X13.  The history list: the rows of the encounters with one divider
    between each two, that is one row per encounter, in the order
    received, and a divider after every row but the last, so that [n]
    encounters give [n - 1] dividers and none trails.  The title of a row
    is never empty: a complaint that is missing, empty or blank gives
    way to the placeholder.  A red triage level always raises the flag,
    whatever [needsAttention] says, and so does [needsAttention] for any
    triage level.  While loading only the spinner stands for the list;
    without data the page shows the empty state, next to the error
    banner when the fetch failed. *)
Theorem history_rows (encounters : list History.Encounter) :
  History.items encounters = separated encounters
  ∧ rowsOf (History.items encounters) = encounters
  ∧ dividersOf (History.items encounters) = length encounters - 1
  ∧ (∀ e, e ∈ encounters →
       History.primary e ≠ ""
       ∧ (or_default (trim <$> History.chiefComplaint e) "" = "" →
          History.primary e = "主訴未入力")
       ∧ (History.triageLevel e = Some History.red →
          History.showFlag e = true)
       ∧ (History.needsAttention e = Some true →
          History.showFlag e = true))
  ∧ (∀ data error, History.page data error true
                   = (if error then [History.ErrorBanner] else [])
                     ++ [History.Spinner])
  ∧ (∀ error, History.page None error false
              = (if error then [History.ErrorBanner] else [])
                ++ [History.EmptyState])
  ∧ (encounters ≠ [] →
     History.page (Some encounters) false false
     = [History.ListOf (History.items encounters)]).
Proof.
  split.
  { apply (children_separated _ (length encounters) 0); done. }
  split; [apply rowsOf_children |]. split.
  { apply (dividersOf_children _ (length encounters) 0); done. }
  split; [|split; [|split]].
  - intros e _. unfold History.primary, History.showFlag.
    split; [|split; [|split]].
    + destruct (trim <$> History.chiefComplaint e) as [t|]; cbn; [|done].
      unfold or_else. by case_bool_decide.
    + destruct (trim <$> History.chiefComplaint e) as [t|]; cbn; [|done].
      unfold or_else. by case_bool_decide.
    + intros ->. apply orb_true_r.
    + by intros ->.
  - by intros data [].
  - by intros [].
  - intros Hne. unfold History.page. cbn.
    rewrite bool_decide_eq_false_2; [done |]. by destruct encounters.
Qed.

(** X14.  Picking a quick reply replaces what was typed by the reply
    (where a chip adds to it), requests nothing and leaves the transcript
    alone.  Every reply offered is its own trimmed text, so that sending
    it on a page with an encounter id posts the reply as offered and
    appends it to the transcript as the user's entry. *)
Theorem quick_reply_replaces_input (v : View) (text : string) (c : Clock) :
  text ∈ replies →
  let v1 := exec (handlePickQuick text) v in
  input v1 = text
  ∧ effects (handlePickQuick text) v = []
  ∧ messages v1 = messages v
  ∧ trim text = text
  ∧ (bound (encounterId v) = true →
     effects (sendMessage_submit None c) v1
     = [PostMessage (String_encounterId (encounterId v)) text]
     ∧ messages (exec (sendMessage_submit None c) v1)
       = messages v ++ [ {| id := "user-" +:+ pretty (now c); role := user;
                            content := text; createdAt := iso c |} ]).
Proof.
  intros Hin. cbv zeta.
  assert (trim text = text ∧ text ≠ "") as [Ht Hne].
  { unfold replies in Hin.
    repeat (apply elem_of_cons in Hin as [->|Hin];
            [split; [vm_compute; reflexivity | done] |]).
    by apply elem_of_nil in Hin. }
  split; [done |]. split; [done |]. split; [done |]. split; [exact Ht |].
  intros Hb. unfold effects, exec.
  rewrite (sendMessage_submit_accepted (handlePickQuick text v).1.2 None c).
  - cbn. by rewrite Ht.
  - done.
  - cbn. by rewrite Ht.
Qed.

(** ** The further properties at concrete inputs *)

Lemma input_is_disabled_while_streaming_witness :
  reachable sample_JSON_parse streaming_view
  ∧ isOpen streaming_view 0
  ∧ sseRef streaming_view = Some 0
  ∧ isStreaming streaming_view = true
  ∧ sendButton_disabled streaming_view = true.
Proof.
  assert (reachable sample_JSON_parse streaming_view) as Hr.
  { exists [Submit (Some "hi") clock1; Settle (Resolved true None) clock1],
      (Some "enc-1").
    reflexivity. }
  assert (isOpen streaming_view 0) as Ho.
  { exists "asst-1". vm_compute. reflexivity. }
  destruct (input_is_disabled_while_streaming sample_JSON_parse
              streaming_view 0 Hr Ho) as (Hcur & _ & Hs & _ & Hd).
  split; [exact Hr |]. split; [exact Ho |]. split; [exact Hcur |].
  split; [exact Hs | exact Hd].
Defined.

Lemma cleanup_closes_the_stream_witness :
  let v' := exec cleanup streaming_view in
  reachable sample_JSON_parse streaming_view
  ∧ isOpen streaming_view 0
  ∧ isClosed v' 0
  ∧ sseRef v' = None
  ∧ messages v' = messages streaming_view
  ∧ (∀ acts ev,
       let w := run sample_JSON_parse acts v' in
       dispatchEvent sample_JSON_parse 0 ev w = (Normal (), w, []))
  ∧ isOpen (exec (sendMessage_settle (Resolved true None) clock5) v') 1.
Proof.
  cbv zeta.
  assert (reachable sample_JSON_parse streaming_view) as Hr.
  { exists [Submit (Some "hi") clock1; Settle (Resolved true None) clock1],
      (Some "enc-1").
    reflexivity. }
  destruct (cleanup_closes_the_stream sample_JSON_parse streaming_view Hr)
    as (_ & Href & Hm & _ & Hstay & Hagain).
  assert (0 < length (eventSources streaming_view)) as Hlt
    by (vm_compute; lia).
  split; [exact Hr |]. split.
  { exists "asst-1". vm_compute. reflexivity. }
  split; [exact (proj1 (Hstay 0 Hlt)) |].
  split; [exact Href |]. split; [exact Hm |]. split.
  - intros acts ev. exact (proj2 (proj2 (Hstay 0 Hlt) acts ev)).
  - exact (proj1 (Hagain eq_refl (Resolved true None) clock5 eq_refl)).
Defined.

Lemma chip_keeps_input_and_is_sendable_witness :
  let v := with_input "咳が出ます" (initialView (Some "enc-1")) in
  let v1 := exec (handleChip allergy) v in
  bound (encounterId v) = true
  ∧ input v1 = "咳が出ます" +:+ nl +:+ "アレルギー："
  ∧ effects (sendMessage_submit None clock1) v1
    = [PostMessage "enc-1" (trim (input v1))].
Proof.
  cbv zeta.
  destruct (chip_keeps_input_and_is_sendable
              (with_input "咳が出ます" (initialView (Some "enc-1")))
              allergy clock1) as (Hin & _ & _ & _ & _ & Hsend).
  split; [vm_compute; reflexivity |]. split; [exact Hin |].
  exact (Hsend eq_refl).
Defined.

Lemma only_plain_Enter_sends_witness :
  let v := with_input " hi " (initialView (Some "enc-1")) in
  let e := {| key := "Enter"; shiftKey := false |} in
  bound (encounterId v) = true
  ∧ sendButton_disabled v = false
  ∧ effects (handleKeyDown e clock1) v = [PostMessage "enc-1" (trim (input v))]
  ∧ handleKeyDown {| key := "Enter"; shiftKey := true |} clock1 v
    = (Normal (false, false), v, []).
Proof.
  cbv zeta.
  destruct (only_plain_Enter_sends
              (with_input " hi " (initialView (Some "enc-1")))
              {| key := "Enter"; shiftKey := false |} clock1)
    as (_ & _ & Hsend).
  destruct (only_plain_Enter_sends
              (with_input " hi " (initialView (Some "enc-1")))
              {| key := "Enter"; shiftKey := true |} clock1)
    as (Hkeep & _).
  split; [vm_compute; reflexivity |]. split; [vm_compute; reflexivity |].
  split.
  - exact (proj1 (proj2 (Hsend eq_refl eq_refl eq_refl eq_refl))).
  - exact (Hkeep (or_intror eq_refl)).
Defined.

Lemma note_from_backend_is_adopted_witness :
  let data := {| note_md := Some "# SOAP"; chief_complaint := Some "咳" |} in
  let m := handleEndConsult (Resolved true None) (Resolved true (Some data))
             "2025/9/1 12:00:00" in
  bound (encounterId (initialView (Some "enc-1"))) = true
  ∧ noteMD (exec m (initialView (Some "enc-1"))) = "# SOAP"
  ∧ chiefComplaint (exec m (initialView (Some "enc-1"))) = Some "咳"
  ∧ effects m (initialView (Some "enc-1"))
    = [PostEnd "enc-1"; PostClinicalNote "enc-1"].
Proof.
  cbv zeta.
  destruct (note_from_backend_is_adopted (initialView (Some "enc-1"))
              (Resolved true None)
              {| note_md := Some "# SOAP"; chief_complaint := Some "咳" |}
              "2025/9/1 12:00:00" eq_refl)
    as (Hmd & _ & Hchief & _ & _ & _ & _ & Hlog).
  split; [vm_compute; reflexivity |].
  split; [exact (Hmd _ eq_refl) |].
  split; [apply (Hchief _ eq_refl); discriminate | exact Hlog].
Defined.

Lemma copy_and_save_reproduce_the_note_witness :
  let data := {| note_md := Some "# SOAP"; chief_complaint := None |} in
  let v' := exec (handleEndConsult Rejected (Resolved true (Some data))
                    "2025/9/1 12:00:00")
              (initialView (Some "enc-1")) in
  bound (encounterId (initialView (Some "enc-1"))) = true
  ∧ copyNote true v' = [WriteClipboard "# SOAP"]
  ∧ saveNote "2025-09-01T03:00:00.000Z" v'
    = [DownloadFile
         ("clinical_note_" +:+ "enc-1" +:+ "_"
          +:+ substring 0 10 "2025-09-01T03:00:00.000Z" +:+ ".md")
         (noteMD v') "text/markdown;charset=utf-8"].
Proof.
  cbv zeta.
  destruct (copy_and_save_reproduce_the_note (initialView (Some "enc-1"))
              Rejected
              (Resolved true
                 (Some {| note_md := Some "# SOAP";
                          chief_complaint := None |}))
              "2025/9/1 12:00:00" "2025-09-01T03:00:00.000Z" eq_refl)
    as (_ & _ & Hsave & Hcopy & _).
  split; [vm_compute; reflexivity |].
  split; [exact (proj1 (Hcopy _ _ eq_refl eq_refl)) | exact Hsave].
Defined.

Lemma aborted_boot_witness :
  bound (encounterId streaming_view) = true
  ∧ exec (mountEffect (Resolved true (Some {| fm_content := Some "hello" |}))
            true clock4 clock4) streaming_view
    = streaming_view
  ∧ messages (exec (mountEffect Rejected true clock4 clock4) streaming_view)
    = seed clock4 clock4 defaultGreeting.
Proof.
  assert (bound (encounterId streaming_view) = true) as Hb
    by (vm_compute; reflexivity).
  destruct (aborted_boot streaming_view
              (Resolved true (Some {| fm_content := Some "hello" |}))
              clock4 clock4 Hb) as (_ & Hkeep).
  destruct (aborted_boot streaming_view Rejected clock4 clock4 Hb)
    as (Hseed & _).
  split; [exact Hb |]. split.
  - apply Hkeep; discriminate.
  - apply Hseed. by left.
Defined.

Lemma todo_is_kept_unless_created_witness :
  let s := {| Todos.title := " milk"; Todos.pending := false;
              Todos.error := Some "Create failed: 500" |} in
  trim (Todos.title s) ≠ ""
  ∧ Todos.onSubmit (Resolves 201 (Readable ())) s
    = (Returned (),
       {| Todos.title := ""; Todos.pending := false; Todos.error := None |},
       [Todos.PreventDefault; Todos.PostTodo " milk"; Todos.Mutate]).
Proof.
  cbv zeta.
  assert (trim " milk" ≠ "") as Hne by (vm_compute; discriminate).
  split; [exact Hne |].
  exact (proj2 (todo_is_kept_unless_created
                  {| Todos.title := " milk"; Todos.pending := false;
                     Todos.error := Some "Create failed: 500" |}
                  (Resolves 201 (Readable ()))) Hne).
Defined.

Lemma history_path_names_one_encounter_witness :
  History.handleOpen "enc/1?x" = "/consult/enc%2F1%3Fx"
  ∧ decodeSegment "enc%2F1%3Fx" = Some "enc/1?x"
  ∧ ∀ id', History.handleOpen "enc/1?x" = History.handleOpen id' →
           "enc/1?x" = id'.
Proof.
  destruct (history_path_names_one_encounter "enc/1?x")
    as (Hpath & _ & _ & Hback & Hinj).
  split; [exact Hpath |]. split; [exact Hback | exact Hinj].
Defined.


Lemma history_rows_witness :
  let e1 := {| History.id := "enc-1"; History.userId := None;
               History.chiefComplaint := Some "  ";
               History.status := History.closed;
               History.startedAt := "2025-09-01T03:00:00.000Z";
               History.endedAt := None;
               History.triageLevel := Some History.red;
               History.needsAttention := Some false |} in
  let e2 := {| History.id := "enc-2"; History.userId := None;
               History.chiefComplaint := Some "咳";
               History.status := History.active;
               History.startedAt := "2025-09-02T03:00:00.000Z";
               History.endedAt := None;
               History.triageLevel := None;
               History.needsAttention := None |} in
  [e1; e2] ≠ []
  ∧ History.items [e1; e2]
    = [History.Row e1; History.Divider; History.Row e2]
  ∧ History.page (Some [e1; e2]) false false
    = [History.ListOf (History.items [e1; e2])]
  ∧ History.primary e1 = "主訴未入力"
  ∧ History.showFlag e1 = true.
Proof.
  cbv zeta.
  match goal with
  | |- [?e1; ?e2] ≠ [] ∧ _ =>
      destruct (history_rows [e1; e2])
        as (Hitems & _ & _ & Hrow & _ & _ & Hpage);
      destruct (Hrow e1 ltac:(left)) as (_ & Hprimary & Hflag & _)
  end.
  split; [discriminate |]. split; [exact Hitems |].
  split; [apply Hpage; discriminate |].
  split; [apply Hprimary; vm_compute; reflexivity |].
  apply Hflag. reflexivity.
Defined.

Lemma quick_reply_replaces_input_witness :
  let v := with_input "typed before" (initialView (Some "enc-1")) in
  "頭痛がひどいです" ∈ replies
  ∧ bound (encounterId v) = true
  ∧ input (exec (handlePickQuick "頭痛がひどいです") v) = "頭痛がひどいです"
  ∧ effects (sendMessage_submit None clock1)
      (exec (handlePickQuick "頭痛がひどいです") v)
    = [PostMessage "enc-1" "頭痛がひどいです"].
Proof.
  cbv zeta.
  assert ("頭痛がひどいです" ∈ replies) as Hin.
  { unfold replies. constructor 2. constructor 1. }
  destruct (quick_reply_replaces_input
              (with_input "typed before" (initialView (Some "enc-1")))
              "頭痛がひどいです" clock1 Hin) as (Hinput & _ & _ & _ & Hsend).
  split; [exact Hin |]. split; [vm_compute; reflexivity |].
  split; [exact Hinput |]. exact (proj1 (Hsend eq_refl)).
Defined.
